(** * FeaturePipeline: a shallow embedding of the pipeline engine

    The development follows the code cell of [feature-pipeline-demo.ipynb]
    that defines the classes [Transformation] and [FeaturePipeline].

    - pandas objects are plain data: a [Series] is a name, a row index and a
      value list; a [DataFrame] is a row index and an ordered list of named
      columns (order and duplicate names matter, so columns are an
      association list).
    - Python dictionaries passed as keyword arguments are insertion-ordered
      association lists.
    - Exceptions are values of [exn]; every fallible operation returns
      [result].  Code that mutates the engine, the registered units, the
      transform function objects or prints a notice runs in the state and
      error monad [M] over [World]. *)

From Stdlib Require Import Ascii String.
From stdpp Require Import base numbers list strings gmap pretty.

Open Scope string_scope.
Open Scope list_scope.

(** ** Scalars, labels and exceptions *)

(** Cell values: heterogeneous, as in an object column.  A tuple of strings is
    what pandas uses as the label of a column under a [MultiIndex]. *)
Inductive scalar :=
| VStr (s : string)
| VInt (z : Z)
| VNaN
| VTuple (items : list string).

#[global] Instance scalar_eq_dec : EqDecision scalar.
Proof. solve_decision. Defined.

(** Row labels and column names are scalars too (pandas allows any hashable
    value; the engine produces strings and integers). *)
Abbreviation label := scalar (only parsing).

(** Python's [repr] of a string.  The text is put between two ['], or between
    two double quotes when it holds a ['] and no double quote; the backslash,
    the quote in use and the ASCII control characters are escaped.  Bytes
    above 127 belong to the encoding of printable characters and are kept. *)
Definition dquote : ascii := Ascii.ascii_of_nat 34.

Definition hex_digit (n : nat) : ascii :=
  nth n (list_ascii_of_string "0123456789abcdef") "0"%char.

Definition repr_char (q c : ascii) : string :=
  let n := Ascii.nat_of_ascii c in
  if decide (c = "\"%char) then "\\"
  else if decide (c = q) then String "\"%char (String q "")
  else if decide (n = 9) then "\t"
  else if decide (n = 10) then "\n"
  else if decide (n = 13) then "\r"
  else if bool_decide (n < 32) || bool_decide (n = 127)
  then String "\"%char (String "x"%char
         (String (hex_digit (n / 16)) (String (hex_digit (n mod 16)) "")))
  else String c "".

Fixpoint repr_body (q : ascii) (s : string) : string :=
  match s with
  | EmptyString => ""
  | String c rest => repr_char q c +:+ repr_body q rest
  end.

Fixpoint has_char (c : ascii) (s : string) : bool :=
  match s with
  | EmptyString => false
  | String c' rest => bool_decide (c' = c) || has_char c rest
  end.

Definition py_repr (s : string) : string :=
  let q := if has_char "'"%char s && negb (has_char dquote s)
           then dquote else "'"%char in
  String q (repr_body q s +:+ String q "").

Fixpoint join_with (sep : string) (l : list string) : string :=
  match l with
  | [] => ""
  | [x] => x
  | x :: rest => x +:+ sep +:+ join_with sep rest
  end.

(** Python's [str] on a label. *)
Definition str_label (l : label) : string :=
  match l with
  | VStr s => s
  | VInt z => pretty z
  | VNaN => "nan"
  | VTuple [x] => "(" +:+ py_repr x +:+ ",)"
  | VTuple items => "(" +:+ join_with ", " (map py_repr items) +:+ ")"
  end.

(** The exceptions of the code, by class.  A [KeyError] carries the key that
    was looked up, or the keys its message lists. *)
Inductive exn :=
| TypeError (msg : string)
| KeyError (keys : list string)
| ValueError (msg : string)
| AttributeError (msg : string)
| AssertionError (msg : string)
| InvalidIndexError
| Exception (msg : string)
| RuntimeError (msg : string).

Inductive result (A : Type) :=
| Ret (a : A)
| Raise (e : exn).

Arguments Ret {A} a.
Arguments Raise {A} e.

Definition rbind {A B} (r : result A) (k : A -> result B) : result B :=
  match r with
  | Ret a => k a
  | Raise e => Raise e
  end.

Fixpoint rmap {A B} (f : A -> result B) (l : list A) : result (list B) :=
  match l with
  | [] => Ret []
  | x :: xs => rbind (f x) (fun y => rbind (rmap f xs) (fun ys => Ret (y :: ys)))
  end.

(** ** pandas objects *)

Record Series := mkSeries {
  s_name : option label;
  s_index : list label;
  s_values : list scalar
}.

Record DataFrame := mkFrame {
  d_index : list label;
  d_columns : list (label * list scalar)
}.

(** What a transform function can be given or can return. *)
Inductive pyval :=
| PSeries (s : Series)
| PFrame (d : DataFrame)
| PScalar (v : scalar)
| PList (l : list scalar).

Definition columns (d : DataFrame) : list label := map fst (d_columns d).

Definition default_index (n : nat) : list label :=
  map (fun i => VInt (Z.of_nat i)) (seq 0 n).

(** [mask] selection of the positions of a list. *)
Fixpoint select {A} (mask : list bool) (l : list A) : list A :=
  match mask, l with
  | b :: mask', x :: l' => if b then x :: select mask' l' else select mask' l'
  | _, _ => []
  end.

(** [Index.duplicated()]: true at every position whose label occurred
    earlier. *)
Fixpoint duplicated_from {A} `{EqDecision A} (seen : list A) (l : list A) : list bool :=
  match l with
  | [] => []
  | x :: xs => bool_decide (x ∈ seen) :: duplicated_from (x :: seen) xs
  end.

Definition duplicated {A} `{EqDecision A} (l : list A) : list bool :=
  duplicated_from [] l.

(** The labels of [l] in order of first appearance. *)
Definition unique_first {A} `{EqDecision A} (l : list A) : list A :=
  select (map negb (duplicated l)) l.

(** [df.loc[:, ~df.columns.duplicated()].copy()] *)
Definition drop_duplicate_columns (d : DataFrame) : DataFrame :=
  mkFrame (d_index d) (select (map negb (duplicated (columns d))) (d_columns d)).

(** The columns of [d] called [c], in table order. *)
Definition columns_named (c : label) (d : DataFrame) : list (label * list scalar) :=
  filter (fun col => fst col = c) (d_columns d).

(** [df[c]] for a single key: a Series when the name is unique, a sub-frame
    when the name is repeated, [KeyError] when it is absent. *)
Definition frame_getitem (d : DataFrame) (c : string) : result pyval :=
  match columns_named (VStr c) d with
  | [] => Raise (KeyError [c])
  | [col] => Ret (PSeries (mkSeries (Some (VStr c)) (d_index d) (snd col)))
  | cols => Ret (PFrame (mkFrame (d_index d) cols))
  end.

(** [ser[c]] for a single key: label-based lookup in the row index. *)
Definition series_getitem (s : Series) (c : string) : result pyval :=
  let hits := select (map (fun l => bool_decide (l = VStr c)) (s_index s)) (s_values s) in
  match hits with
  | [] => Raise (KeyError [c])
  | [v] => Ret (PScalar v)
  | vs => Ret (PSeries (mkSeries (s_name s) (map (fun _ => VStr c) vs) vs))
  end.

(** The keys of [cs] that are no column of [d], each once, in the order of
    [cs]. *)
Definition missing_columns (d : DataFrame) (cs : list string) : list string :=
  unique_first (filter (fun c => VStr c ∉ columns d) cs).

(** [df[cs]] for a list of keys: the named columns side by side, in the order
    of [cs].  When keys are missing the lookup raises a [KeyError] whose
    message names every missing key (pandas prints the missing keys when some
    key was found, and the whole list of keys when none was); the payload
    here is [missing_columns]. *)
Definition frame_getitem_list (d : DataFrame) (cs : list string) : result DataFrame :=
  match missing_columns d cs with
  | [] => Ret (mkFrame (d_index d) (flat_map (fun c => columns_named (VStr c) d) cs))
  | missing => Raise (KeyError missing)
  end.

(** Row [i] of a frame as the Series pandas hands to a row-wise function:
    the labels are the column names. *)
Definition frame_row (d : DataFrame) (i : nat) : list (label * scalar) :=
  map (fun col => (fst col, nth i (snd col) VNaN)) (d_columns d).

(** [x[cs]] on a row: for every key in turn, all the entries with that
    label. *)
Definition row_getitem_list (x : list (label * scalar)) (cs : list string) : list scalar :=
  flat_map (fun c => map snd (filter (fun e => fst e = VStr c) x)) cs.

(** [df[name] = values]: overwrite the column in place if it exists, append
    it otherwise. *)
Definition has_column (d : DataFrame) (c : label) : bool :=
  bool_decide (c ∈ columns d).

Definition frame_setitem (d : DataFrame) (c : label) (vals : list scalar) : DataFrame :=
  if has_column d c
  then mkFrame (d_index d)
         (map (fun col => if decide (fst col = c) then (c, vals) else col) (d_columns d))
  else mkFrame (d_index d) (d_columns d ++ [(c, vals)]).

(** [del df[name]] *)
Definition frame_delitem (d : DataFrame) (c : label) : DataFrame :=
  mkFrame (d_index d) (filter (fun col => fst col <> c) (d_columns d)).

(** Keep the rows selected by [mask]. *)
Definition frame_select_rows (mask : list bool) (d : DataFrame) : DataFrame :=
  mkFrame (select mask (d_index d))
          (map (fun col => (fst col, select mask (snd col))) (d_columns d)).

(** The values of the first column called [c]. *)
Definition column_values (d : DataFrame) (c : label) : list scalar :=
  match columns_named c d with
  | col :: _ => snd col
  | [] => []
  end.

(** [df.drop_duplicates([c])]: the first row of every distinct value of the
    column survives, in table order. *)
Definition drop_duplicates (d : DataFrame) (c : label) : DataFrame :=
  frame_select_rows (map negb (duplicated (column_values d c))) d.

(** [obj.index = labels]: pandas checks the length. *)
Definition set_index (v : pyval) (labels : list label) : result pyval :=
  match v with
  | PSeries s =>
      if decide (length labels = length (s_index s))
      then Ret (PSeries (mkSeries (s_name s) labels (s_values s)))
      else Raise (ValueError "Length mismatch")
  | PFrame d =>
      if decide (length labels = length (d_index d))
      then Ret (PFrame (mkFrame labels (d_columns d)))
      else Raise (ValueError "Length mismatch")
  | _ => Raise (AttributeError "index")
  end.

(** [obj.reset_index(drop=True)]: the labels are discarded, the positions
    0, 1, ... take their place. *)
Definition reset_index (v : pyval) : result pyval :=
  match v with
  | PSeries s =>
      Ret (PSeries (mkSeries (s_name s) (default_index (length (s_index s))) (s_values s)))
  | PFrame d =>
      Ret (PFrame (mkFrame (default_index (length (d_index d))) (d_columns d)))
  | _ => Raise (AttributeError "reset_index")
  end.

(** The row index of a Series or DataFrame. *)
Definition index_of (v : pyval) : list label :=
  match v with
  | PSeries s => s_index s
  | PFrame d => d_index d
  | _ => []
  end.

(** ** [pd.concat(objs, axis=1)] *)

(** Every Series becomes a one-column frame; a Series without a name is
    numbered by a running counter. *)
Fixpoint as_frames (counter : Z) (objs : list pyval) : result (list DataFrame) :=
  match objs with
  | [] => Ret []
  | PSeries s :: rest =>
      match s_name s with
      | Some n =>
          rbind (as_frames counter rest)
                (fun fs => Ret (mkFrame (s_index s) [(n, s_values s)] :: fs))
      | None =>
          rbind (as_frames (counter + 1) rest)
                (fun fs => Ret (mkFrame (s_index s) [(VInt counter, s_values s)] :: fs))
      end
  | PFrame d :: rest => rbind (as_frames counter rest) (fun fs => Ret (d :: fs))
  | _ :: _ => Raise (TypeError "cannot concatenate object; only Series and DataFrame objs are valid")
  end.

(** The values of a column carried over to the row labels [target]; a label
    the column does not have gives [VNaN]. *)
Definition reindex_values (idx : list label) (vals : list scalar) (target : list label)
  : list scalar :=
  map (fun l => match list_find (fun l' => l' = l) idx with
                | Some (i, _) => nth i vals VNaN
                | None => VNaN
                end) target.

(** The float64 nearest to an integer, ties to even: integers up to 2^53 in
    absolute value are kept, larger ones keep 53 significant bits. *)
Definition float64_of_Z (z : Z) : Z :=
  let a := Z.abs z in
  if (a <=? 2 ^ 53)%Z then z
  else
    let e := (Z.log2 a - 52)%Z in
    let q := Z.shiftr a e in
    let r := Z.land a (Z.ones e) in
    let half := Z.shiftl 1 (e - 1) in
    let q' := if (half <? r)%Z || ((r =? half)%Z && Z.odd q) then (q + 1)%Z else q in
    (Z.sgn z * Z.shiftl q' e)%Z.

Definition to_float64 (v : scalar) : scalar :=
  match v with
  | VInt z => VInt (float64_of_Z z)
  | other => other
  end.

(** The dtype pandas infers for the values of a column is numeric when they
    are integers that fit int64 or uint64, or numbers with a missing value
    among them (float64); a column that holds a string, a tuple or a larger
    integer is an object column. *)
Definition is_int (lo hi : Z) (v : scalar) : bool :=
  match v with
  | VInt z => (lo <=? z)%Z && (z <? hi)%Z
  | _ => false
  end.

Definition is_number (v : scalar) : bool :=
  match v with
  | VInt _ | VNaN => true
  | VStr _ | VTuple _ => false
  end.

Definition numeric_dtype (vals : list scalar) : bool :=
  forallb (is_int (- 2 ^ 63) (2 ^ 63)) vals
  || forallb (is_int 0 (2 ^ 64)) vals
  || (forallb is_number vals && existsb (fun v => bool_decide (v = VNaN)) vals).

(** A column carried over to the row labels [target].  When a label is
    missing the column is padded with NaN, and a numeric column is float64
    from then on: its integers are rounded to the nearest float64. *)
Definition reindex_column (idx : list label) (vals : list scalar) (target : list label)
  : list scalar :=
  let padded := reindex_values idx vals target in
  if forallb (fun l => bool_decide (l ∈ idx)) target then padded
  else if numeric_dtype vals then map to_float64 padded
  else padded.

Definition reindex (target : list label) (d : DataFrame) : list (label * list scalar) :=
  map (fun col => (fst col, reindex_column (d_index d) (snd col) target)) (d_columns d).

(** Column-wise concatenation.  Objects that share one row index are put
    side by side.  Otherwise the rows are outer-joined on the labels (order
    of first appearance); pandas can do this only when the labels to align
    are unique, and reports [InvalidIndexError] when they are not. *)
Definition concat_axis1 (objs : list pyval) : result DataFrame :=
  match objs with
  | [] => Raise (ValueError "No objects to concatenate")
  | _ =>
      rbind (as_frames 0 objs) (fun fs =>
        match map d_index fs with
        | [] => Raise (ValueError "No objects to concatenate")
        | i0 :: others =>
            if forallb (fun i => bool_decide (i = i0)) others
            then Ret (mkFrame i0 (flat_map d_columns fs))
            else if forallb (fun i => bool_decide (NoDup i)) (i0 :: others)
            then let u := unique_first (concat (i0 :: others)) in
                 Ret (mkFrame u (flat_map (reindex u) fs))
            else Raise InvalidIndexError
        end)
  end.

(** ** Keyword dictionaries *)

Definition dict := list (string * pyval).

Fixpoint dict_get (k : string) (d : dict) : option pyval :=
  match d with
  | [] => None
  | (k', v) :: rest => if decide (k' = k) then Some v else dict_get k rest
  end.

(** [d[k] = v]: an existing key keeps its position. *)
Fixpoint dict_set (k : string) (v : pyval) (d : dict) : dict :=
  match d with
  | [] => [(k, v)]
  | (k', v') :: rest =>
      if decide (k' = k) then (k, v) :: rest else (k', v') :: dict_set k v rest
  end.

(** [d.update(e)] *)
Definition dict_update (d e : dict) : dict :=
  fold_left (fun acc kv => dict_set (fst kv) (snd kv) acc) e d.

Definition dict_values (d : dict) : list pyval := map snd d.

(** ** Transform functions

    A transform function is a Python function object, made by [def] or
    [lambda].  The model keeps what the engine can observe: the identity of
    the function object, the names of its parameters (all required, none
    variadic) and its body as a function of the bound parameter values, which
    returns a value or raises.  A function object takes attributes. *)

Record callable := mkCallable {
  fn_id : nat;
  fn_params : list string;
  fn_body : list pyval -> result pyval
}.

(** What a caller can hand to [add_transformation] as [transformation_f]: a
    function object, or a callable that takes no attributes (a builtin, a
    bound method), of which only the identity matters here. *)
Inductive transform_object :=
| FunctionObject (f : callable)
| NoAttributes (id : nat).

Coercion FunctionObject : callable >-> transform_object.

Definition object_id (o : transform_object) : nat :=
  match o with
  | FunctionObject f => fn_id f
  | NoAttributes id => id
  end.

(** Binding a call by keyword: every parameter must be supplied and no other name
    may be. *)
Definition bind_kw (params : list string) (kwargs : dict) : option (list pyval) :=
  if decide (length kwargs = length params)
  then mapM (fun p => dict_get p kwargs) params
  else None.

(** Binding a call by position. *)
Definition bind_pos (params : list string) (args : list pyval) : option (list pyval) :=
  if decide (length args = length params) then Some args else None.

Definition call_kw (f : callable) (kwargs : dict) : result pyval :=
  match bind_kw (fn_params f) kwargs with
  | Some vs => fn_body f vs
  | None => Raise (TypeError "got an unexpected keyword argument or missing a required argument")
  end.

Definition call_pos (f : callable) (args : list pyval) : result pyval :=
  match bind_pos (fn_params f) args with
  | Some vs => fn_body f vs
  | None => Raise (TypeError "wrong number of positional arguments")
  end.

(** ** The classes *)

Inductive on_cols :=
| OneCol (c : string)
| Cols (cs : list string).

Inductive out_name :=
| NameNone
| NameStr (s : string)
| NameList (l : list string).

(** [class Transformation] *)
Record Transformation := mkTransformation {
  on_col : on_cols;
  transformation_f : callable;
  name : out_name;
  transform_type : string;
  transformation_args : option dict;
  transformation_applied : bool
}.

(** [Transformation.__init__] *)
Definition Transformation_init (on_col : on_cols) (f : callable) (name : out_name)
    (args : option dict) (transform_type : string) : Transformation :=
  mkTransformation on_col f name transform_type args false.

(** [class FeaturePipeline] *)
Record FeaturePipeline := mkPipeline {
  transformations : list Transformation;
  transformed_df : option pyval;
  logger : option string
}.

(** [FeaturePipeline.__init__] *)
Definition FeaturePipeline_init (logger : option string) : FeaturePipeline :=
  mkPipeline [] None logger.

(** ** The world the engine runs in *)

(** One attempted call of a transform function. *)
Inductive call_event :=
| CallKw (f : nat) (kwargs : dict)
| CallPos (f : nat) (args : list pyval).

(** What the engine prints. *)
Inductive notice :=
| AlreadyAdded (f : nat)
| AlreadyApplied (unit : nat).

Record World := mkWorld {
  engine : FeaturePipeline;
  (** the [logger] attribute of the function objects, by object identity *)
  fn_logger : gmap nat (option string);
  call_log : list call_event;
  stdout : list notice
}.

Definition M (A : Type) : Type := World -> result A * World.

Definition ret {A} (a : A) : M A := fun w => (Ret a, w).

Definition raise {A} (e : exn) : M A := fun w => (Raise e, w).

Definition bind {A B} (m : M A) (k : A -> M B) : M B :=
  fun w => match m w with
           | (Ret a, w') => k a w'
           | (Raise e, w') => (Raise e, w')
           end.

Definition lift {A} (r : result A) : M A := fun w => (r, w).

Declare Scope pipeline_scope.
Delimit Scope pipeline_scope with pipeline.

Notation "x <- m ;; k" := (bind m (fun x => k))
  (at level 100, m at next level, right associativity) : pipeline_scope.
Notation "m ;;; k" := (bind m (fun _ => k))
  (at level 100, right associativity) : pipeline_scope.

Open Scope pipeline_scope.

(** [try: m  except TypeError: h] *)
Definition except_TypeError {A} (m h : M A) : M A :=
  fun w => match m w with
           | (Raise (TypeError _), w') => h w'
           | other => other
           end.

Definition log_call (ev : call_event) : M unit :=
  fun w => (Ret tt, mkWorld (engine w) (fn_logger w) (call_log w ++ [ev]) (stdout w)).

Definition print (n : notice) : M unit :=
  fun w => (Ret tt, mkWorld (engine w) (fn_logger w) (call_log w) (stdout w ++ [n])).

Definition get_engine : M FeaturePipeline := fun w => (Ret (engine w), w).

Definition put_engine (e : FeaturePipeline) : M unit :=
  fun w => (Ret tt, mkWorld e (fn_logger w) (call_log w) (stdout w)).

(** [f.logger = l] on a function object *)
Definition set_fn_logger (f : callable) (l : option string) : M unit :=
  fun w => (Ret tt, mkWorld (engine w) (<[fn_id f := l]> (fn_logger w)) (call_log w) (stdout w)).

(** [self.transformed_df = v] *)
Definition store_transformed_df (v : option pyval) : M unit :=
  e <- get_engine ;;
  put_engine (mkPipeline (transformations e) v (logger e)).

(** The unit at position [i] of the registry. *)
Definition get_unit (i : nat) : M Transformation :=
  e <- get_engine ;;
  match transformations e !! i with
  | Some t => ret t
  | None => raise (RuntimeError "no such unit")
  end.

(** [t.transformation_applied = b] on the unit at position [i] *)
Definition set_applied (i : nat) (b : bool) : M unit :=
  e <- get_engine ;;
  put_engine
    (mkPipeline
       (alter (fun t => mkTransformation (on_col t) (transformation_f t) (name t)
                          (transform_type t) (transformation_args t) b) i
              (transformations e))
       (transformed_df e) (logger e)).

(** ** [Transformation.apply] *)

(** Lines 51-59: the columns of the result are renamed after the unit. *)
Definition rename_output (n : out_name) (tdf : pyval) : result pyval :=
  match n with
  | NameNone => Ret tdf
  | NameList l =>
      match tdf with
      | PFrame d =>
          if decide (length l = length (d_columns d))
          then Ret (PFrame (mkFrame (d_index d)
                      (zip_with (fun n col => (VStr n, snd col)) l (d_columns d))))
          else Raise (ValueError "Length mismatch")
      | PSeries s =>
          (* [tdf.columns = [self.name]] with a list inside the list: pandas
             reads a one-level MultiIndex with [length l] entries, which fits
             the single column only when [l] has one name; the label of the
             column is then the 1-tuple of that name, not the name *)
          match l with
          | [n] => Ret (PFrame (mkFrame (s_index s) [(VTuple [n], s_values s)]))
          | _ => Raise (ValueError "Length mismatch")
          end
      | _ => Ret tdf
      end
  | NameStr n =>
      match tdf with
      | PFrame d =>
          Ret (PFrame (mkFrame (d_index d)
                 (map (fun col => (VStr (n +:+ "_" +:+ str_label (fst col)), snd col))
                      (d_columns d))))
      | PSeries s => Ret (PFrame (mkFrame (s_index s) [(VStr n, s_values s)]))
      | _ => Ret tdf
      end
  end.

(** Lines 46-49: the call by keyword, and the positional call under
    [except TypeError]. *)
Definition call_transformation_f (f : callable) (args : dict) : M pyval :=
  except_TypeError
    (log_call (CallKw (fn_id f) args) ;;; lift (call_kw f args))
    (log_call (CallPos (fn_id f) (dict_values args)) ;;;
     lift (call_pos f (dict_values args))).

(** [self] is the unit at position [i] of the engine's registry. *)
Definition Transformation_apply (i : nat) (args : dict) : M pyval :=
  self <- get_unit i ;;
  tdf <- call_transformation_f (transformation_f self) args ;;
  tdf <- lift (rename_output (name self) tdf) ;;
  tdf <- lift (reset_index tdf) ;;
  set_applied i true ;;;
  ret tdf.

(** ** [FeaturePipeline.add_transformation] *)

(** The objects that meet in the membership test [transformation_f in
    self.transformations].  Neither functions nor [Transformation] instances
    define [__eq__], so [==] is object identity, and an object of one class is
    never an object of the other. *)
Inductive pyobj :=
| FunctionObj (id : nat)
| TransformationObj (pos : nat).

Definition obj_eq (a b : pyobj) : bool :=
  match a, b with
  | FunctionObj i, FunctionObj j => bool_decide (i = j)
  | TransformationObj i, TransformationObj j => bool_decide (i = j)
  | _, _ => false
  end.

(** [x in l] *)
Definition list_contains (x : pyobj) (l : list pyobj) : bool := existsb (obj_eq x) l.

(** The elements of [self.transformations] as objects. *)
Definition registry_objects (e : FeaturePipeline) : list pyobj :=
  imap (fun i _ => TransformationObj i) (transformations e).

(** Lines 102-103: a single name becomes a one-element list. *)
Definition normalize_on_cols (oc : on_cols) : on_cols :=
  match oc with
  | OneCol c => Cols [c]
  | Cols cs => Cols cs
  end.

(** Line 100, [transformation_f.logger = self.logger], raises an
    [AttributeError] on an object that takes no attributes; nothing has been
    appended by then. *)
Definition add_transformation (on_cols : on_cols) (transformation_f : transform_object)
    (transformation_args : option dict) (name : out_name) (transform_type : string)
  : M unit :=
  self <- get_engine ;;
  if list_contains (FunctionObj (object_id transformation_f)) (registry_objects self)
  then print (AlreadyAdded (object_id transformation_f))
  else
    match transformation_f with
    | NoAttributes _ => raise (AttributeError "object has no attribute 'logger'")
    | FunctionObject f =>
        set_fn_logger f (logger self) ;;;
        let on_cols := normalize_on_cols on_cols in
        put_engine
          (mkPipeline
             (transformations self ++
                [Transformation_init on_cols f name transformation_args transform_type])
             (transformed_df self) (logger self))
    end.

(** ** [FeaturePipeline.get_args] *)

(** The body of the loop over [on_col_list] (lines 127-136). *)
Definition resolve_column (df : DataFrame) (transformed_df : option pyval) (c : string)
  : result pyval :=
  if bool_decide (VStr c ∈ columns df)
  then frame_getitem df c
  else
    let attempt :=
      match transformed_df with
      | None => Raise (TypeError "'NoneType' object is not subscriptable")
      | Some (PFrame d) => frame_getitem d c
      | Some (PSeries s) => series_getitem s c
      | Some _ => Raise (TypeError "object is not subscriptable")
      end in
    match attempt with
    | Ret s => Ret s
    | Raise _ => Raise (Exception ("Column " +:+ c +:+ " not found in input dataframes"))
    end.

(** [shape[0]] *)
Definition nrows (v : pyval) : result nat :=
  match v with
  | PSeries s => Ret (length (s_index s))
  | PFrame d => Ret (length (d_index d))
  | _ => Raise (AttributeError "shape")
  end.

(** Python truthiness of [t.transformation_args]. *)
Definition fixed_args (t : Transformation) : dict :=
  match transformation_args t with
  | Some d => d
  | None => []
  end.

(** Lines 122-125: the declared input names as a list. *)
Definition on_col_list (t : Transformation) : list string :=
  match on_col t with
  | OneCol c => [c]
  | Cols cs => cs
  end.

(** The keyword names of line 139. *)
Definition series_args (list_of_series : list pyval) : dict :=
  imap (fun i l => ("ser" +:+ pretty (S i), l)) list_of_series.

Definition get_args (t : Transformation) (df : DataFrame) (transformed_df : option pyval)
  : result dict :=
  rbind (rmap (resolve_column df transformed_df) (on_col_list t)) (fun list_of_series =>
  rbind
    (if decide (transform_type t = "series")
     then Ret (series_args list_of_series)
     else if decide (transform_type t = "dataframe")
     then
       rbind (concat_axis1 list_of_series) (fun arg_df =>
       rbind (match list_of_series with
              | first :: _ => nrows first
              | [] => Raise (ValueError "No objects to concatenate")
              end) (fun n =>
       if decide (length (d_index arg_df) = n)
       then Ret [("df", PFrame arg_df)]
       else Raise (AssertionError
                     "Argument dataframe has different shape than concatenated series")))
     else Raise (Exception "Unknwon transform type"))
    (fun args => Ret (dict_update args (fixed_args t)))).

(** ** [FeaturePipeline.apply_transformations] *)

(** [sep.join(vs)]: every item must be a string. *)
Fixpoint str_join (vs : list scalar) : result string :=
  match vs with
  | [] => Ret ""
  | VStr s :: rest => rbind (str_join rest) (fun t => Ret (s +:+ t))
  | _ :: _ => Raise (TypeError "sequence item: expected str instance")
  end.

(** The row-wise function of line 168 at row [i] of [df[index_cols]]. *)
Definition row_key (sub : DataFrame) (index_cols : list string) (i : nat) : result string :=
  str_join (row_getitem_list (frame_row sub i) index_cols).

(** The right-hand side of line 168 on a table of [n] rows.  The row-wise
    [apply] is the map of [row_key] over the rows.  On a table without rows
    [DataFrame.apply] has no row to call the function on and hands back a
    copy of the table it was given; the assignment to the single column
    [INDEX] takes that table only when it has exactly one column. *)
Definition apply_row_key (sub : DataFrame) (index_cols : list string) (n : nat)
  : result (list string) :=
  if decide (n = 0 /\ length (d_columns sub) <> 1)
  then Raise (ValueError "Cannot set a DataFrame with multiple columns to the single column INDEX")
  else rmap (row_key sub index_cols) (seq 0 n).

(** Lines 166-178: the row identity of the call.  Returns the working raw
    table and [index_list]. *)
Definition create_index (df : DataFrame) (index_cols : option (list string))
  : result (DataFrame * list label) :=
  match index_cols with
  | Some (c :: cs) =>
      let index_cols := c :: cs in
      rbind (frame_getitem_list df index_cols) (fun sub =>
      rbind (apply_row_key sub index_cols (length (d_index df))) (fun keys =>
      let df := frame_setitem df (VStr "INDEX") (map VStr keys) in
      let df := drop_duplicates df (VStr "INDEX") in
      let index_list := column_values df (VStr "INDEX") in
      rbind (set_index (PFrame df) index_list) (fun df =>
      match df with
      | PFrame df => Ret (frame_delitem df (VStr "INDEX"), index_list)
      | _ => Raise (RuntimeError "not a frame")
      end)))
  | _ => Ret (df, d_index df)
  end.

(** The body of the loop over the registry (lines 182-195) for the unit at
    position [i]; [transformed_df] is the running result. *)
Definition apply_unit (df : DataFrame) (index_list : list label) (reapply_all : bool)
    (transformed_df : option pyval) (i : nat) : M (option pyval) :=
  t <- get_unit i ;;
  if transformation_applied t && negb reapply_all
  then print (AlreadyApplied i) ;;; ret transformed_df
  else
    args <- lift (get_args t df transformed_df) ;;
    transformed_df <-
      match transformed_df with
      | None =>
          transformed_df <- Transformation_apply i args ;;
          lift (set_index transformed_df index_list)
      | Some acc =>
          tdf <- Transformation_apply i args ;;
          tdf <- lift (set_index tdf index_list) ;;
          d <- lift (concat_axis1 [acc; tdf]) ;;
          ret (PFrame d)
      end ;;
    store_transformed_df (Some transformed_df) ;;;
    ret (Some transformed_df).

Fixpoint for_each_unit (df : DataFrame) (index_list : list label) (reapply_all : bool)
    (units : list nat) (transformed_df : option pyval) : M (option pyval) :=
  match units with
  | [] => ret transformed_df
  | i :: rest =>
      transformed_df <- apply_unit df index_list reapply_all transformed_df i ;;
      for_each_unit df index_list reapply_all rest transformed_df
  end.

Definition apply_transformations (df : DataFrame) (index_cols : option (list string))
    (reapply_all : bool) : M (option pyval) :=
  let df := drop_duplicate_columns df in
  working <- lift (create_index df index_cols) ;;
  let df := fst working in
  let index_list := snd working in
  self <- get_engine ;;
  for_each_unit df index_list reapply_all
    (seq 0 (length (transformations self))) (transformed_df self).

(** ** Worlds used in the statements *)

(** The world after the call attempts [evs]. *)
Definition logged (evs : list call_event) (w : World) : World :=
  mkWorld (engine w) (fn_logger w) (call_log w ++ evs) (stdout w).

(** The world after the notices [ns]. *)
Definition printed (ns : list notice) (w : World) : World :=
  mkWorld (engine w) (fn_logger w) (call_log w) (stdout w ++ ns).

(** The world after the unit at position [i] has been flagged as applied. *)
Definition mark_applied (i : nat) (w : World) : World := snd (set_applied i true w).

(** The units of the world. *)
Definition units (w : World) : list Transformation := transformations (engine w).

(** The world after [self.transformed_df = v]. *)
Definition stored (v : pyval) (w : World) : World :=
  snd (store_transformed_df (Some v) w).

(** Lines 187-193 after the unit has returned [tdf]: the fragment gets the
    row labels [index_list], and is the running result if there was none,
    or is put beside the running result. *)
Definition merge_fragment (index_list : list label) (acc : option pyval) (tdf : pyval)
  : result pyval :=
  rbind (set_index tdf index_list) (fun tdf =>
    match acc with
    | None => Ret tdf
    | Some a => rbind (concat_axis1 [a; tdf]) (fun d => Ret (PFrame d))
    end).

(** A name is found in the raw table or else in the accumulated table. *)
Definition resolvable (df : DataFrame) (acc : option DataFrame) (c : string) : Prop :=
  VStr c ∈ columns df \/ exists d, acc = Some d /\ VStr c ∈ columns d.

(** The unit [t] is not skipped by the loop. *)
Definition executed (t : Transformation) (reapply_all : bool) : Prop :=
  transformation_applied t && negb reapply_all = false.

(** The unit at position [i] exists and is flagged as applied. *)
Definition applied (w : World) (i : nat) : Prop :=
  exists t, units w !! i = Some t /\ transformation_applied t = true.

(** The notices of a pass that skips every unit. *)
Definition all_skipped (w : World) : list notice :=
  map AlreadyApplied (seq 0 (length (units w))).

(** The function object a call event is about. *)
Definition event_fn (ev : call_event) : nat :=
  match ev with
  | CallKw f _ => f
  | CallPos f _ => f
  end.

(** Concatenation of strings. *)
Definition concat_strings (l : list string) : string := foldr String.append "" l.

(** The row keys of a table of [n] rows whose identity column [c] holds the
    strings [cell c]: for every row, the values of the identity columns put
    together in the order of [index_cols]. *)
Definition row_keys (cell : string -> list string) (index_cols : list string) (n : nat)
  : list string :=
  map (fun i => concat_strings (map (fun c => nth i (cell c) "") index_cols)) (seq 0 n).

(** The rows of a table that are the first with their key. *)
Definition first_rows (keys : list string) : list bool := map negb (duplicated keys).

(** Lines 51-61: what [Transformation.apply] makes of the value [v] the
    function returned. *)
Definition output_fragment (n : out_name) (v : pyval) : result pyval :=
  rbind (rename_output n v) reset_index.

(** The same Series or table under other row labels. *)
Definition with_labels (v : pyval) (labels : list label) : pyval :=
  match v with
  | PSeries s => PSeries (mkSeries (s_name s) labels (s_values s))
  | PFrame d => PFrame (mkFrame labels (d_columns d))
  | other => other
  end.


(** Every column of the table has one value per row. *)
Definition well_formed (d : DataFrame) : Prop :=
  Forall (fun col => length (snd col) = length (d_index d)) (d_columns d).

(** The error of line 168 on a value that is not a string. *)
Definition not_a_string : exn := TypeError "sequence item: expected str instance".

(** The value is not a string. *)
Definition non_string (v : scalar) : Prop := forall s, v <> VStr s.

(** The value is a number or a missing value. *)
Definition numeric (v : scalar) : Prop :=
  match v with
  | VInt _ | VNaN => True
  | VStr _ | VTuple _ => False
  end.

(** Two units that differ at most in their applied flag, which is not
    cleared from the first to the second. *)
Definition same_unit (t t' : Transformation) : Prop :=
  on_col t' = on_col t
  /\ transformation_f t' = transformation_f t
  /\ name t' = name t
  /\ transform_type t' = transform_type t
  /\ transformation_args t' = transformation_args t
  /\ (transformation_applied t = true -> transformation_applied t' = true).

(** The registry and the function objects of [w'] are those of [w], up to
    applied flags that have been set. *)
Definition registry_kept (w w' : World) : Prop :=
  fn_logger w' = fn_logger w
  /\ logger (engine w') = logger (engine w)
  /\ Forall2 same_unit (units w) (units w').

(** The indicator of [transforms_above_threshold] on one value. *)
Definition indicator (th : Z) (v : scalar) : scalar :=
  match v with
  | VInt z => VInt (if decide (th < z)%Z then 1 else 0)
  | _ => VInt 0
  end.

(** The calls a pass may log for the unit [t]: none if the unit is skipped,
    the keyword call and at most its positional fallback if it is run. *)
Definition calls_of_unit (reapply_all : bool) (t : Transformation)
    (evs : list call_event) : Prop :=
  Forall (fun ev => event_fn ev = fn_id (transformation_f t)) evs
  /\ (transformation_applied t && negb reapply_all = true -> evs = [])
  /\ (executed t reapply_all -> 1 <= length evs <= 2).

(** The notice a pass prints for the unit at position [i] of [w]. *)
Definition skip_notice (reapply_all : bool) (w : World) (i : nat) : list notice :=
  match units w !! i with
  | Some t => if transformation_applied t && negb reapply_all
              then [AlreadyApplied i] else []
  | None => []
  end.



(** ** Concrete inputs

    The transform function of the demo notebook, on the model's integers:
    [transforms_above_threshold(ser1, threshold)] marks the values above the
    threshold.  Comparing a string with the threshold is a [TypeError] raised
    by the body, as [ser1 > threshold] does on an object column.

    The notebook registers the function with an integer threshold, and that
    is the case the body below follows line by line, whatever [ser1] is:
    - a Series is compared value by value and the result takes its row index;
    - a number compares to a bool, the one-row Series is built, and
      [s.index = ser1.index] fails because a number has no [index];
    - a string, a tuple or a list cannot be compared with an integer;
    - a table compares cell by cell, and [pd.Series] refuses the
      two-dimensional array that [np.where] returns.
    With a threshold that is not an integer the outcome of [ser1 > threshold]
    depends on the dtype of the column, which the tables here do not carry;
    the body then fails with the [TypeError] of the comparison. *)

Fixpoint above_threshold (th : Z) (vs : list scalar) : result (list scalar) :=
  match vs with
  | [] => Ret []
  | VInt z :: rest =>
      rbind (above_threshold th rest)
            (fun r => Ret (VInt (if decide (th < z)%Z then 1 else 0) :: r))
  | VNaN :: rest => rbind (above_threshold th rest) (fun r => Ret (VInt 0 :: r))
  | VStr _ :: _ => Raise (TypeError "'>' not supported between instances of 'str' and 'int'")
  | VTuple _ :: _ =>
      Raise (TypeError "'>' not supported between instances of 'tuple' and 'int'")
  end.

Definition transforms_above_threshold : callable :=
  mkCallable 1 ["ser1"; "threshold"]
    (fun vs => match vs with
               | [PSeries s; PScalar (VInt th)] =>
                   rbind (above_threshold th (s_values s))
                         (fun r => Ret (PSeries (mkSeries None (s_index s) r)))
               | [PScalar (VInt _); PScalar (VInt _)]
               | [PScalar VNaN; PScalar (VInt _)] =>
                   Raise (AttributeError "object has no attribute 'index'")
               | [PFrame d; PScalar (VInt th)] =>
                   rbind (rmap (fun col => above_threshold th (snd col)) (d_columns d))
                         (fun _ => Raise (ValueError "Data must be 1-dimensional"))
               | _ => Raise (TypeError "unsupported operand types")
               end).

(** An engine with the single unit of section 3.1 of the notebook. *)
Definition demo_world : World :=
  snd (add_transformation (OneCol "Amount") transforms_above_threshold
         (Some [("threshold", PScalar (VInt 500))]) (NameStr "High") "series"
         (mkWorld (FeaturePipeline_init None) ∅ [] [])).

(** Resolved arguments whose column holds a string. *)
Definition demo_args_str : dict :=
  [("ser1", PSeries (mkSeries (Some (VStr "Amount")) [VInt 0; VInt 1]
                       [VStr "n/a"; VInt 600]));
   ("threshold", PScalar (VInt 500))].

(** Resolved arguments with integer amounts. *)
Definition demo_args : dict :=
  [("ser1", PSeries (mkSeries (Some (VStr "Amount")) [VInt 0; VInt 1]
                       [VInt 100; VInt 600]));
   ("threshold", PScalar (VInt 500))].

(** A function that returns a two-column table with the integer column
    names 0 and 1, the way [Series.str.split(expand=True)] does: the column
    itself and a column of zeros. *)
Definition transforms_pair (id : nat) : callable :=
  mkCallable id ["ser1"]
    (fun vs => match vs with
               | [PSeries s] =>
                   Ret (PFrame (mkFrame (s_index s)
                                  [(VInt 0, s_values s);
                                   (VInt 1, map (fun _ => VInt 0) (s_values s))]))
               | _ => Raise (TypeError "unsupported operand types")
               end).



(** An engine with three units: a list of output names, a prefix, and no
    output name at all. *)
Definition naming_world : World :=
  snd ((add_transformation (OneCol "Amount") (transforms_pair 2) None
          (NameList ["lo"; "hi"]) "series" ;;;
        add_transformation (OneCol "Amount") (transforms_pair 3) None
          (NameStr "P") "series" ;;;
        add_transformation (OneCol "Amount") transforms_above_threshold
          (Some [("threshold", PScalar (VInt 500))]) NameNone "series")
         (mkWorld (FeaturePipeline_init None) ∅ [] [])).

Definition naming_args : dict :=
  [("ser1", PSeries (mkSeries (Some (VStr "Amount")) [VStr "r1"; VStr "r2"]
                       [VInt 100; VInt 600]))].

(** A raw table with a repeated identity value, and the working table of a
    call that takes [ID] as identity column. *)
Definition demo_raw : DataFrame :=
  mkFrame [VInt 0; VInt 1; VInt 2]
    [(VStr "ID", [VStr "a"; VStr "b"; VStr "b"]);
     (VStr "Amount", [VInt 100; VInt 600; VInt 700])].

Definition demo_working : DataFrame :=
  mkFrame [VStr "a"; VStr "b"]
    [(VStr "ID", [VStr "a"; VStr "b"]); (VStr "Amount", [VInt 100; VInt 600])].

(** A raw table with a repeated column name and a column called [INDEX]. *)
Definition dup_raw : DataFrame :=
  mkFrame [VInt 0; VInt 1]
    [(VStr "ID", [VStr "a"; VStr "b"]); (VStr "INDEX", [VStr "x"; VStr "y"]);
     (VStr "ID", [VStr "c"; VStr "d"]); (VStr "Amount", [VInt 100; VInt 600])].

(** The table [naming_world] builds from [demo_raw] under the identity [ID]. *)
Definition naming_features : pyval :=
  PFrame (mkFrame [VStr "a"; VStr "b"]
            [(VStr "lo", [VInt 100; VInt 600]); (VStr "hi", [VInt 0; VInt 0]);
             (VStr "P_0", [VInt 100; VInt 600]); (VStr "P_1", [VInt 0; VInt 0]);
             (VInt 0, [VInt 0; VInt 1])]).


(** The resolved arguments of the demo unit on [demo_working]. *)
Definition demo_working_args : dict :=
  [("ser1", PSeries (mkSeries (Some (VStr "Amount")) [VStr "a"; VStr "b"]
                       [VInt 100; VInt 600]));
   ("threshold", PScalar (VInt 500))].

(** The demo engine after one call on [demo_raw] with [ID] as identity. *)
Definition demo_world_applied : World :=
  snd (apply_transformations demo_raw (Some ["ID"]) false demo_world).

Definition demo_features : pyval :=
  PFrame (mkFrame [VStr "a"; VStr "b"] [(VStr "High", [VInt 0; VInt 1])]).





(** The raw table of the example scenario of the specification: integer
    identities. *)
Definition spec_raw : DataFrame :=
  mkFrame [VInt 0; VInt 1; VInt 2]
    [(VStr "ID", [VInt 1; VInt 2; VInt 2]);
     (VStr "Amount", [VInt 100; VInt 600; VInt 600])].

(** The identity strings of [demo_raw]. *)
Definition demo_cell (c : string) : list string :=
  if decide (c = "ID") then ["a"; "b"; "b"] else [].

(** A second raw table, with one row of another identity, and the demo
    engine after its first call and the registration of a second unit. *)
Definition other_raw : DataFrame :=
  mkFrame [VInt 0] [(VStr "ID", [VStr "c"]); (VStr "Amount", [VInt 900])].

Definition stale_world : World :=
  snd (add_transformation (OneCol "Amount") (transforms_pair 2) None (NameStr "P") "series"
         demo_world_applied).

(** * Properties *)

(** ** Running monadic code *)

Arguments concat_axis1 : simpl never.
Arguments get_args : simpl never.
Arguments set_index : simpl never.
Arguments reset_index : simpl never.
Arguments rename_output : simpl never.
Arguments create_index : simpl never.
Arguments call_kw : simpl never.
Arguments call_pos : simpl never.


Ltac run :=
  repeat (unfold bind, ret, raise, lift, get_engine, put_engine, print, log_call,
          set_fn_logger, store_transformed_df, get_unit, set_applied,
          except_TypeError; simpl).

(** Closes [x ∉ l] for a concrete list [l] of constructor terms. *)
Ltac not_in_list :=
  let H := fresh in
  intros H;
  repeat (apply elem_of_cons in H; destruct H as [H|H]; [discriminate H|]);
  inversion H.

Lemma bind_ret_l {A B} (a : A) (k : A -> M B) (w : World) : bind (ret a) k w = k a w.
Proof. reflexivity. Qed.

Lemma bind_assoc {A B C} (m : M A) (k : A -> M B) (h : B -> M C) (w : World) :
  bind (bind m k) h w = bind m (fun a => bind (k a) h) w.
Proof. unfold bind. destruct (m w) as [[a|e] w']; reflexivity. Qed.

Lemma bind_ret_r {A} (m : M A) (w : World) : bind m ret w = m w.
Proof. unfold bind, ret. destruct (m w) as [[a|e] w']; reflexivity. Qed.

(** ** Registration *)

(** A function object is never found among the registry's elements. *)
Lemma function_not_in_units (n : nat) (l : list Transformation) (k : nat -> nat) :
  existsb (obj_eq (FunctionObj n)) (imap (fun i _ => TransformationObj (k i)) l) = false.
Proof.
  revert k. induction l as [|t l IH]; intros k; simpl; [reflexivity|].
  apply (IH (k ∘ S)).
Qed.

Lemma list_contains_function (f : callable) (e : FeaturePipeline) :
  list_contains (FunctionObj (fn_id f)) (registry_objects e) = false.
Proof. apply (function_not_in_units (fn_id f) (transformations e) id). Qed.

(** What a call of [add_transformation] does to the world. *)
Lemma add_transformation_run (oc : on_cols) (f : callable) (args : option dict)
    (n : out_name) (ty : string) (w : World) :
  add_transformation oc f args n ty w =
  (Ret tt,
   mkWorld
     (mkPipeline
        (transformations (engine w) ++
           [Transformation_init (normalize_on_cols oc) f n args ty])
        (transformed_df (engine w)) (logger (engine w)))
     (<[fn_id f := logger (engine w)]> (fn_logger w)) (call_log w) (stdout w)).
Proof.
  unfold add_transformation. run.
  rewrite list_contains_function. destruct oc; reflexivity.
Qed.

(** Registering an object that takes no attributes raises at line 100 and
    leaves the engine and the function objects as they were. *)
Lemma add_transformation_no_attributes (oc : on_cols) (o : nat) (args : option dict)
    (n : out_name) (ty : string) (w : World) :
  add_transformation oc (NoAttributes o) args n ty w
  = (Raise (AttributeError "object has no attribute 'logger'"), w).
Proof.
  pose proof (function_not_in_units o (transformations (engine w)) id) as Hnot.
  unfold add_transformation, bind, get_engine, list_contains, registry_objects.
  cbn [object_id]. unfold id in Hnot. rewrite Hnot. reflexivity.
Qed.

(** C6, evaluated on the code.  The claim asks that a second registration of
    the same function object be rejected with a notice, leaving one unit.
    The membership test of [add_transformation] compares the function with
    the registered [Transformation] instances, never with their functions:
    registering [f] twice in a fresh engine leaves two units wrapping [f],
    and nothing is printed. *)
Theorem add_transformation_same_function_twice (f : callable) (lg : option string) :
  let w0 := mkWorld (FeaturePipeline_init lg) ∅ [] [] in
  let w2 := snd ((add_transformation (OneCol "a") f None (NameStr "x") "series" ;;;
                  add_transformation (OneCol "b") f None (NameStr "y") "series") w0) in
  map (fun t => fn_id (transformation_f t)) (transformations (engine w2))
    = [fn_id f; fn_id f]
  /\ stdout w2 = [].
Proof.
  intros w0 w2. subst w2. unfold bind at 1.
  rewrite add_transformation_run. rewrite add_transformation_run. simpl. auto.
Qed.

(** C9.  Every registration that appends a unit has first set the [logger]
    attribute of the caller's function object to the engine's logger: the
    call is the assignment to the function object followed by the append.
    The attribute lives in the store of function objects, outside the engine,
    so it stays set whatever happens to the engine afterwards, and no other
    function object is touched. *)
Theorem add_transformation_sets_logger (oc : on_cols) (f : callable)
    (args : option dict) (n : out_name) (ty : string) (w : World) :
  let unit := Transformation_init (normalize_on_cols oc) f n args ty in
  let w' := snd (add_transformation oc f args n ty w) in
  add_transformation oc f args n ty w =
    (set_fn_logger f (logger (engine w)) ;;;
     put_engine (mkPipeline (transformations (engine w) ++ [unit])
                   (transformed_df (engine w)) (logger (engine w)))) w
  /\ transformations (engine w') = transformations (engine w) ++ [unit]
  /\ fn_logger w' !! fn_id f = Some (logger (engine w))
  /\ (forall g : nat, g <> fn_id f -> fn_logger w' !! g = fn_logger w !! g).
Proof.
  intros unit w'. subst unit w'. rewrite add_transformation_run. simpl.
  repeat split.
  - apply lookup_insert_eq.
  - intros g Hg. apply lookup_insert_ne. congruence.
Qed.

Lemma add_transformation_sets_logger_witness :
  fn_logger demo_world !! 1%nat = Some None
  /\ fn_logger demo_world !! 5%nat = None.
Proof.
  destruct (add_transformation_sets_logger (OneCol "Amount") transforms_above_threshold
              (Some [("threshold", PScalar (VInt 500))]) (NameStr "High") "series"
              (mkWorld (FeaturePipeline_init None) ∅ [] []))
    as (_ & _ & Hset & Hother).
  split; [exact Hset|]. apply (Hother 5%nat). discriminate.
Defined.

(** ** Invocation *)

Lemma call_transformation_f_run (f : callable) (args : dict) (w : World) :
  call_transformation_f f args w =
  match call_kw f args with
  | Raise (TypeError _) =>
      (call_pos f (dict_values args),
       logged [CallKw (fn_id f) args; CallPos (fn_id f) (dict_values args)] w)
  | r => (r, logged [CallKw (fn_id f) args] w)
  end.
Proof.
  unfold call_transformation_f, logged. run.
  destruct (call_kw f args) as [v|[]]; simpl; try reflexivity.
  rewrite <- app_assoc. reflexivity.
Qed.

Lemma Transformation_apply_run (i : nat) (t : Transformation) (args : dict) (w : World) :
  units w !! i = Some t ->
  Transformation_apply i args w =
  match call_transformation_f (transformation_f t) args w with
  | (Ret v, w1) =>
      match rbind (rename_output (name t) v) reset_index with
      | Ret tdf => (Ret tdf, mark_applied i w1)
      | Raise e => (Raise e, w1)
      end
  | (Raise e, w1) => (Raise e, w1)
  end.
Proof.
  intros Hi. unfold Transformation_apply, units in *.
  unfold bind at 1. unfold get_unit at 1. run. rewrite Hi. simpl.
  destruct (call_transformation_f (transformation_f t) args w) as [[v|e] w1];
    [|reflexivity].
  destruct (rename_output (name t) v) as [v'|e]; simpl; [|reflexivity].
  destruct (reset_index v') as [v''|e]; reflexivity.
Qed.

(** C7, the claim as stated fails.  The keyword call below matches the
    signature of the function (the binding succeeds) and the [TypeError] comes
    from the function's own comparison; the engine nevertheless calls the
    function a second time, positionally. *)
Lemma invoke_retries_on_body_TypeError :
  bind_kw (fn_params transforms_above_threshold) demo_args_str
    = Some (dict_values demo_args_str)
  /\ fn_body transforms_above_threshold (dict_values demo_args_str)
       = Raise (TypeError "'>' not supported between instances of 'str' and 'int'")
  /\ call_log (snd (Transformation_apply 0 demo_args_str demo_world))
       = [CallKw 1 demo_args_str; CallPos 1 (dict_values demo_args_str)].
Proof. repeat split. Qed.

(** C7, amended.  The function is first called by keyword.  An exception of
    that call which is not a [TypeError] propagates unchanged and nothing
    else is called.  A [TypeError] of that call, whether it comes from the
    binding of the parameters (a signature mismatch is always one) or from the
    body, is followed by exactly one positional call with the values in
    insertion order, and the outcome of that call is final: its exception
    propagates, its value is renamed and returned. *)
Theorem invoke_retry_policy (i : nat) (t : Transformation) (args : dict) (w : World) :
  units w !! i = Some t ->
  let f := transformation_f t in
  let kw := CallKw (fn_id f) args in
  let pos := CallPos (fn_id f) (dict_values args) in
  (bind_kw (fn_params f) args = None -> exists m, call_kw f args = Raise (TypeError m))
  /\ (forall v, call_kw f args = Ret v ->
        call_log (snd (Transformation_apply i args w)) = call_log w ++ [kw])
  /\ (forall e, call_kw f args = Raise e -> (forall m, e <> TypeError m) ->
        Transformation_apply i args w = (Raise e, logged [kw] w))
  /\ (forall m, call_kw f args = Raise (TypeError m) ->
        call_log (snd (Transformation_apply i args w)) = call_log w ++ [kw; pos]
        /\ (forall e, call_pos f (dict_values args) = Raise e ->
              Transformation_apply i args w = (Raise e, logged [kw; pos] w))
        /\ (forall v, call_pos f (dict_values args) = Ret v ->
              fst (Transformation_apply i args w)
                = rbind (rename_output (name t) v) reset_index)).
Proof.
  intros Hi f kw pos. subst f kw pos.
  rewrite (Transformation_apply_run i t args w Hi), call_transformation_f_run.
  split; [|split; [|split]].
  - intros Hb. unfold call_kw. rewrite Hb. eauto.
  - intros v Hv. rewrite Hv.
    destruct (rbind (rename_output (name t) v) reset_index); reflexivity.
  - intros e He Hne. rewrite He. destruct e; try reflexivity.
    exfalso. eapply Hne. reflexivity.
  - intros m Hm. rewrite Hm. split; [|split].
    + destruct (call_pos (transformation_f t) (dict_values args)) as [v|e];
        [|reflexivity].
      destruct (rbind (rename_output (name t) v) reset_index); reflexivity.
    + intros e He. rewrite He. reflexivity.
    + intros v Hv. rewrite Hv.
      destruct (rbind (rename_output (name t) v) reset_index); reflexivity.
Qed.

Lemma invoke_retry_policy_witness :
  units demo_world !! 0%nat = Some (Transformation_init (Cols ["Amount"])
     transforms_above_threshold (NameStr "High")
     (Some [("threshold", PScalar (VInt 500))]) "series")
  /\ Transformation_apply 0 demo_args_str demo_world
     = (Raise (TypeError "'>' not supported between instances of 'str' and 'int'"),
        logged [CallKw 1 demo_args_str; CallPos 1 (dict_values demo_args_str)]
          demo_world).
Proof.
  split; [reflexivity|].
  destruct (invoke_retry_policy 0 _ demo_args_str demo_world eq_refl)
    as (_ & _ & _ & H).
  destruct (H "'>' not supported between instances of 'str' and 'int'" eq_refl)
    as (_ & Hraise & _).
  apply (Hraise _ eq_refl).
Defined.

(** ** One unit of the loop *)

Lemma apply_unit_run (df : DataFrame) (index_list : list label) (reapply_all : bool)
    (acc : option pyval) (i : nat) (t : Transformation) (w : World) :
  units w !! i = Some t ->
  apply_unit df index_list reapply_all acc i w =
  if transformation_applied t && negb reapply_all
  then (Ret acc, printed [AlreadyApplied i] w)
  else match get_args t df acc with
       | Raise e => (Raise e, w)
       | Ret args =>
           match Transformation_apply i args w with
           | (Raise e, w1) => (Raise e, w1)
           | (Ret tdf, w1) =>
               match merge_fragment index_list acc tdf with
               | Raise e => (Raise e, w1)
               | Ret new => (Ret (Some new), stored new w1)
               end
           end
       end.
Proof.
  intros Hi. unfold apply_unit, units in *.
  unfold bind at 1. unfold get_unit at 1. run. rewrite Hi. simpl.
  destruct (transformation_applied t && negb reapply_all); [reflexivity|].
  destruct (get_args t df acc) as [args|e]; simpl; [|reflexivity].
  unfold merge_fragment.
  destruct acc as [a|]; simpl;
    destruct (Transformation_apply i args w) as [[tdf|e] w1]; simpl; try reflexivity;
    destruct (set_index tdf index_list) as [tdf'|e]; simpl; try reflexivity.
  destruct (concat_axis1 [a; tdf']); reflexivity.
Qed.

(** ** Naming of the output fragment *)

Lemma length_default_index (n : nat) : length (default_index n) = n.
Proof. unfold default_index. rewrite length_map, length_seq. reflexivity. Qed.





(** A Series put beside a table with the same row labels is one more column,
    under its own name, or under the number 0 if it has none. *)
Lemma concat_axis1_frame_series (a : DataFrame) (s : Series) :
  s_index s = d_index a ->
  concat_axis1 [PFrame a; PSeries s]
  = Ret (mkFrame (d_index a)
           (d_columns a ++ [(default (VInt 0) (s_name s), s_values s)])).
Proof.
  intros Hidx. unfold concat_axis1. simpl.
  destruct (s_name s) as [n|]; simpl; rewrite Hidx;
    rewrite bool_decide_eq_true_2 by reflexivity; reflexivity.
Qed.

(** C10.  A unit without an output name renames nothing: a returned Series
    stays a Series with the name the function gave it, a returned table keeps
    its column names; only the row labels become positional.  As the first
    fragment of a call, the Series becomes the running result as it is, under
    the row labels of the call; beside a running table with those labels it
    becomes one more column under its own name. *)
Theorem no_name_no_renaming (i : nat) (t : Transformation) (args : dict) (w w1 : World)
    (v : pyval) :
  units w !! i = Some t ->
  name t = NameNone ->
  call_transformation_f (transformation_f t) args w = (Ret v, w1) ->
  (forall s, v = PSeries s ->
     Transformation_apply i args w
     = (Ret (PSeries (mkSeries (s_name s) (default_index (length (s_index s)))
                        (s_values s))),
        mark_applied i w1))
  /\ (forall d, v = PFrame d ->
     Transformation_apply i args w
     = (Ret (PFrame (mkFrame (default_index (length (d_index d))) (d_columns d))),
        mark_applied i w1))
  /\ (forall s df index_list reapply_all, v = PSeries s ->
     executed t reapply_all ->
     get_args t df None = Ret args ->
     length index_list = length (s_index s) ->
     let merged := PSeries (mkSeries (s_name s) index_list (s_values s)) in
     apply_unit df index_list reapply_all None i w
     = (Ret (Some merged), stored merged (mark_applied i w1)))
  /\ (forall s df a reapply_all, v = PSeries s ->
     executed t reapply_all ->
     get_args t df (Some (PFrame a)) = Ret args ->
     length (d_index a) = length (s_index s) ->
     let merged :=
       PFrame (mkFrame (d_index a)
                 (d_columns a ++ [(default (VInt 0) (s_name s), s_values s)])) in
     apply_unit df (d_index a) reapply_all (Some (PFrame a)) i w
     = (Ret (Some merged), stored merged (mark_applied i w1))).
Proof.
  intros Hi Hname Hcall.
  assert (Happly : forall v', reset_index v = Ret v' ->
            Transformation_apply i args w = (Ret v', mark_applied i w1)).
  { intros v' Hv'. rewrite (Transformation_apply_run i t args w Hi), Hcall, Hname.
    unfold rename_output. simpl. rewrite Hv'. reflexivity. }
  repeat apply conj.
  - intros s ->. apply Happly. reflexivity.
  - intros d ->. apply Happly. reflexivity.
  - intros s df index_list reapply_all -> Hskip Hargs Hlen merged.
    unfold executed in Hskip.
    rewrite (apply_unit_run df index_list reapply_all None i t w Hi), Hskip, Hargs.
    rewrite (Happly _ eq_refl). unfold merge_fragment, set_index. simpl.
    rewrite length_default_index.
    destruct (decide (length index_list = length (s_index s))); [|contradiction].
    reflexivity.
  - intros s df a reapply_all -> Hskip Hargs Hlen merged.
    unfold executed in Hskip.
    rewrite (apply_unit_run df (d_index a) reapply_all _ i t w Hi), Hskip, Hargs.
    rewrite (Happly _ eq_refl). unfold merge_fragment, set_index. simpl.
    rewrite length_default_index.
    destruct (decide (length (d_index a) = length (s_index s))); [|contradiction].
    simpl. rewrite concat_axis1_frame_series by reflexivity. reflexivity.
Qed.

Lemma no_name_no_renaming_witness :
  Transformation_apply 2 demo_args naming_world
  = (Ret (PSeries (mkSeries None [VInt 0; VInt 1] [VInt 0; VInt 1])),
     mark_applied 2 (logged [CallKw 1 demo_args] naming_world)).
Proof.
  destruct (no_name_no_renaming 2 _ demo_args naming_world _ _ eq_refl eq_refl eq_refl)
    as (H & _ & _).
  apply (H _ eq_refl).
Defined.

(** ** Argument resolution *)

Lemma columns_named_nil (c : label) (d : DataFrame) :
  c ∉ columns d -> columns_named c d = [].
Proof.
  unfold columns, columns_named. induction (d_columns d) as [|col cols IH];
    intros Hc; [reflexivity|].
  rewrite fmap_cons, not_elem_of_cons in Hc. destruct Hc as [Hne Hc].
  rewrite filter_cons_False by (simpl; congruence). auto.
Qed.

Lemma columns_named_cons (c : label) (d : DataFrame) :
  c ∈ columns d -> exists col cols, columns_named c d = col :: cols /\ fst col = c.
Proof.
  unfold columns, columns_named. induction (d_columns d) as [|col cols IH];
    intros Hc; [inversion Hc|].
  destruct (decide (fst col = c)) as [Heq|Hne].
  - rewrite filter_cons_True by assumption. eauto.
  - rewrite filter_cons_False by assumption. apply IH.
    simpl in Hc. apply elem_of_cons in Hc.
    destruct Hc as [Heq|Hin]; [congruence|exact Hin].
Qed.

Lemma frame_getitem_present (d : DataFrame) (c : string) :
  VStr c ∈ columns d -> exists v, frame_getitem d c = Ret v.
Proof.
  intros Hc. destruct (columns_named_cons _ _ Hc) as (col & cols & Heq & _).
  unfold frame_getitem. rewrite Heq. destruct cols; eauto.
Qed.


Lemma resolve_column_raw (df : DataFrame) (acc : option pyval) (c : string) :
  VStr c ∈ columns df -> resolve_column df acc c = frame_getitem df c.
Proof. intros Hc. unfold resolve_column. rewrite bool_decide_eq_true_2; auto. Qed.

Lemma resolve_column_features (df d : DataFrame) (c : string) :
  VStr c ∉ columns df -> VStr c ∈ columns d ->
  resolve_column df (Some (PFrame d)) c = frame_getitem d c.
Proof.
  intros Hraw Hc. unfold resolve_column. rewrite bool_decide_eq_false_2 by auto.
  destruct (frame_getitem_present d c Hc) as [v ->]. reflexivity.
Qed.



Lemma rmap_all_Ret {A B} (f : A -> result B) (l : list A) :
  (forall y, y ∈ l -> exists b, f y = Ret b) ->
  exists bs, rmap f l = Ret bs /\ Forall2 (fun y b => f y = Ret b) l bs.
Proof.
  induction l as [|y l IH]; intros Hl; simpl.
  - exists []. split; [reflexivity|constructor].
  - destruct (Hl y) as [b Hb]; [left|].
    destruct IH as (bs & Hbs & Hall); [intros z Hz; apply Hl; right; exact Hz|].
    exists (b :: bs). rewrite Hb, Hbs. split; [reflexivity|]. constructor; auto.
Qed.

Lemma resolve_column_resolvable (df : DataFrame) (acc : option DataFrame) (c : string) :
  resolvable df acc c -> exists v, resolve_column df (PFrame <$> acc) c = Ret v.
Proof.
  intros [Hraw|(d & -> & Hd)].
  - rewrite resolve_column_raw by assumption. apply frame_getitem_present, Hraw.
  - destruct (decide (VStr c ∈ columns df)) as [Hraw|Hraw].
    + rewrite resolve_column_raw by assumption. apply frame_getitem_present, Hraw.
    + simpl. rewrite resolve_column_features by assumption.
      apply frame_getitem_present, Hd.
Qed.

Lemma get_args_series (t : Transformation) (df : DataFrame) (acc : option pyval)
    (vs : list pyval) :
  rmap (resolve_column df acc) (on_col_list t) = Ret vs ->
  transform_type t = "series" ->
  get_args t df acc = Ret (dict_update (series_args vs) (fixed_args t)).
Proof.
  intros Hvs Hty. unfold get_args. rewrite Hvs. simpl.
  rewrite Hty. reflexivity.
Qed.









(** ** The shape of the world after one unit *)

Lemma logged_nil (w : World) : logged [] w = w.
Proof. destruct w. unfold logged. simpl. rewrite app_nil_r. reflexivity. Qed.

Lemma printed_nil (w : World) : printed [] w = w.
Proof. destruct w. unfold printed. simpl. rewrite app_nil_r. reflexivity. Qed.

Lemma printed_printed (ns1 ns2 : list notice) (w : World) :
  printed ns2 (printed ns1 w) = printed (ns1 ++ ns2) w.
Proof. unfold printed. simpl. rewrite app_assoc. reflexivity. Qed.

Lemma call_transformation_f_world (f : callable) (args : dict) (w w1 : World)
    (r : result pyval) :
  call_transformation_f f args w = (r, w1) ->
  w1 = logged [CallKw (fn_id f) args] w
  \/ w1 = logged [CallKw (fn_id f) args; CallPos (fn_id f) (dict_values args)] w.
Proof.
  rewrite call_transformation_f_run.
  destruct (call_kw f args) as [v|[]]; intros [= _ <-]; auto.
Qed.

Lemma applied_mark_applied (i j : nat) (w : World) :
  applied w j -> applied (mark_applied i w) j.
Proof.
  intros (t & Hj & Ht). unfold applied, mark_applied, units in *. simpl.
  destruct (decide (i = j)) as [->|Hne].
  - rewrite list_lookup_alter_eq, Hj. simpl. eauto.
  - rewrite list_lookup_alter_ne by assumption. eauto.
Qed.

Lemma applied_mark_applied_eq (i : nat) (w : World) :
  i < length (units w) -> applied (mark_applied i w) i.
Proof.
  intros Hlt. apply lookup_lt_is_Some_2 in Hlt. destruct Hlt as [t Ht].
  unfold applied, mark_applied, units in *. simpl.
  rewrite list_lookup_alter_eq, Ht. simpl. eauto.
Qed.

Lemma length_units_mark_applied (i : nat) (w : World) :
  length (units (mark_applied i w)) = length (units w).
Proof. unfold mark_applied, units. simpl. apply length_alter. Qed.

(** ** The loop over the registry *)

Section Loop.

Variables (df : DataFrame) (index_list : list label) (reapply_all : bool).

(** The three ways a unit can leave the loop body. *)
Lemma apply_unit_cases (acc : option pyval) (i : nat) (t : Transformation) (w w' : World)
    (r : result (option pyval)) :
  units w !! i = Some t ->
  apply_unit df index_list reapply_all acc i w = (r, w') ->
  (transformation_applied t && negb reapply_all = true
   /\ r = Ret acc /\ w' = printed [AlreadyApplied i] w)
  \/ (executed t reapply_all
      /\ exists e evs, r = Raise e
         /\ (w' = logged evs w \/ w' = mark_applied i (logged evs w)))
  \/ (executed t reapply_all
      /\ exists new evs, r = Ret (Some new)
         /\ w' = stored new (mark_applied i (logged evs w))).
Proof.
  intros Hi. rewrite (apply_unit_run df index_list reapply_all acc i t w Hi).
  unfold executed.
  destruct (transformation_applied t && negb reapply_all).
  { intros [= <- <-]. left. auto. }
  intros Hrun. right. destruct (get_args t df acc) as [args|e].
  2:{ injection Hrun as <- <-. left. split; [reflexivity|].
      exists e, []. rewrite logged_nil. auto. }
  rewrite (Transformation_apply_run i t args w Hi) in Hrun.
  destruct (call_transformation_f (transformation_f t) args w) as [[v|e] w1] eqn:Hcall;
    apply call_transformation_f_world in Hcall.
  2:{ injection Hrun as <- <-. left. split; [reflexivity|].
      destruct Hcall as [-> | ->]; eauto. }
  destruct (rbind (rename_output (name t) v) reset_index) as [tdf|e].
  2:{ injection Hrun as <- <-. left. split; [reflexivity|].
      destruct Hcall as [-> | ->]; eauto. }
  destruct (merge_fragment index_list acc tdf) as [new|e]; injection Hrun as <- <-.
  - right. split; [reflexivity|]. destruct Hcall as [-> | ->]; eauto.
  - left. split; [reflexivity|]. destruct Hcall as [-> | ->]; eauto.
Qed.

(** One unit never clears a flag, never changes the number of units, and on
    success leaves its own flag set and the engine's table equal to the
    running result. *)
Lemma apply_unit_invariant (acc : option pyval) (i : nat) (w w' : World) (r : result (option pyval)) :
  i < length (units w) ->
  apply_unit df index_list reapply_all acc i w = (r, w') ->
  length (units w') = length (units w)
  /\ (forall j, applied w j -> applied w' j)
  /\ (forall acc', r = Ret acc' ->
        applied w' i
        /\ (acc = transformed_df (engine w) -> acc' = transformed_df (engine w'))).
Proof.
  intros Hlt Hrun. destruct (lookup_lt_is_Some_2 _ _ Hlt) as [t Ht].
  destruct (apply_unit_cases _ _ _ _ _ _ Ht Hrun)
    as [(Hskip & -> & ->) | [(_ & e & evs & -> & [-> | ->])
                            | (_ & new & evs & -> & ->)]].
  - split; [reflexivity|]. split; [auto|]. intros acc' [= <-]. split; [|auto].
    exists t. apply andb_prop in Hskip. split; [exact Ht|apply Hskip].
  - split; [reflexivity|]. split; [auto|]. intros acc' [=].
  - split; [exact (length_units_mark_applied i (logged evs w))|].
    split; [|intros acc' [=]].
    intros j Hj. exact (applied_mark_applied i j (logged evs w) Hj).
  - split; [exact (length_units_mark_applied i (logged evs w))|]. split.
    + intros j Hj. exact (applied_mark_applied i j (logged evs w) Hj).
    + intros acc' [= <-]. split; [|reflexivity].
      exact (applied_mark_applied_eq i (logged evs w) Hlt).
Qed.

Lemma for_each_unit_app (l1 l2 : list nat) (acc : option pyval) (w : World) :
  for_each_unit df index_list reapply_all (l1 ++ l2) acc w =
  match for_each_unit df index_list reapply_all l1 acc w with
  | (Ret a, w1) => for_each_unit df index_list reapply_all l2 a w1
  | (Raise e, w1) => (Raise e, w1)
  end.
Proof.
  revert acc w. induction l1 as [|i l1 IH]; intros acc w; simpl; [reflexivity|].
  unfold bind.
  destruct (apply_unit df index_list reapply_all acc i w) as [[a|e] w1];
    [apply IH|reflexivity].
Qed.

Lemma for_each_unit_invariant (l : list nat) (acc : option pyval) (w w' : World)
    (r : result (option pyval)) :
  (forall i, i ∈ l -> i < length (units w)) ->
  for_each_unit df index_list reapply_all l acc w = (r, w') ->
  length (units w') = length (units w)
  /\ (forall j, applied w j -> applied w' j)
  /\ (forall acc', r = Ret acc' ->
        (forall i, i ∈ l -> applied w' i)
        /\ (acc = transformed_df (engine w) -> acc' = transformed_df (engine w'))).
Proof.
  revert acc w. induction l as [|i l IH]; intros acc w Hl; simpl.
  - intros [= <- <-]. split; [reflexivity|]. split; [auto|].
    intros acc' [= <-]. split; [|auto]. intros i Hi. inversion Hi.
  - unfold bind.
    destruct (apply_unit df index_list reapply_all acc i w) as [[a|e] w1] eqn:Hstep.
    + destruct (apply_unit_invariant _ _ _ _ _ (Hl i ltac:(left)) Hstep)
        as (Hlen1 & Hmono1 & Hok1).
      destruct (Hok1 a eq_refl) as [Hi1 Hacc1].
      intros Hrest. apply IH in Hrest.
      2:{ intros j Hj. rewrite Hlen1. apply Hl. right. exact Hj. }
      destruct Hrest as (Hlen2 & Hmono2 & Hok2).
      split; [congruence|]. split; [auto|].
      intros acc' ->. destruct (Hok2 acc' eq_refl) as [Hall2 Hacc2].
      split; [|auto].
      intros j Hj. apply elem_of_cons in Hj. destruct Hj as [->|Hj]; auto.
    + intros [= <- <-].
      destruct (apply_unit_invariant _ _ _ _ _ (Hl i ltac:(left)) Hstep)
        as (Hlen1 & Hmono1 & _).
      split; [exact Hlen1|]. split; [exact Hmono1|]. intros acc' [=].
Qed.

End Loop.

(** A pass over units that are all flagged calls nothing and only prints. *)
Lemma for_each_unit_skip (df : DataFrame) (index_list : list label) (l : list nat)
    (acc : option pyval) (w : World) :
  (forall i, i ∈ l -> applied w i) ->
  for_each_unit df index_list false l acc w
  = (Ret acc, printed (map AlreadyApplied l) w).
Proof.
  revert w. induction l as [|i l IH]; intros w Hall; simpl.
  - rewrite printed_nil. reflexivity.
  - destruct (Hall i) as (t & Ht & Hflag); [left|].
    unfold bind. rewrite (apply_unit_run df index_list false acc i t w Ht), Hflag.
    simpl. rewrite IH.
    + rewrite printed_printed. reflexivity.
    + intros j Hj. destruct (Hall j) as (tj & Hj' & Hfj); [right; exact Hj|].
      exists tj. auto.
Qed.

Lemma apply_transformations_run (df : DataFrame) (index_cols : option (list string))
    (reapply_all : bool) (w : World) :
  apply_transformations df index_cols reapply_all w =
  match create_index (drop_duplicate_columns df) index_cols with
  | Ret working =>
      for_each_unit (fst working) (snd working) reapply_all
        (seq 0 (length (units w))) (transformed_df (engine w)) w
  | Raise e => (Raise e, w)
  end.
Proof.
  unfold apply_transformations. run.
  destruct (create_index (drop_duplicate_columns df) index_cols); reflexivity.
Qed.

Lemma elem_of_seq_0 (n i : nat) : i ∈ seq 0 n -> i < n.
Proof. rewrite elem_of_seq. lia. Qed.

(** C4, the claim as stated fails.  The demo engine after its first call has
    its only unit flagged.  A call without forced re-application on the table
    of the specification's scenario, whose identities are integers, raises
    the [TypeError] of line 168; so does not return the accumulated table, and
    prints no notice.  A call that names an identity column the table does
    not have raises a [KeyError] the same way. *)
Lemma applied_engine_raises_on_unusable_identity :
  (forall i, i < length (units demo_world_applied) -> applied demo_world_applied i)
  /\ transformed_df (engine demo_world_applied) = Some demo_features
  /\ apply_transformations spec_raw (Some ["ID"]) false demo_world_applied
     = (Raise not_a_string, demo_world_applied)
  /\ apply_transformations demo_raw (Some ["Day"]) false demo_world_applied
     = (Raise (KeyError ["Day"]), demo_world_applied).
Proof.
  repeat split. intros i Hi.
  assert (i = 0)%nat as -> by (change (i < 1) in Hi; lia).
  eexists. split; reflexivity.
Qed.

(** C4, amended.  In an engine whose units are all flagged as applied, a call
    without forced re-application either builds the row identity of the raw
    table, and then calls no transform function, prints one notice per unit
    and returns the accumulated table, leaving the engine as it was; or it
    cannot build the row identity (an identity column is missing or holds a
    value that is not a string), and then raises that error before it looks
    at any unit, again calling nothing and leaving the engine as it was, but
    printing nothing and returning nothing.  Without identity columns the
    first case holds for every raw table.  Hence after a call that returned,
    a second call with the same arguments and no registration in between
    returns the same table, which is the accumulated table of the engine,
    and calls nothing. *)
Theorem apply_skips_applied_units (df : DataFrame) (index_cols : option (list string))
    (w : World) :
  ((forall i, i < length (units w) -> applied w i) ->
   apply_transformations df index_cols false w =
   match create_index (drop_duplicate_columns df) index_cols with
   | Ret _ => (Ret (transformed_df (engine w)), printed (all_skipped w) w)
   | Raise e => (Raise e, w)
   end)
  /\ ((forall i, i < length (units w) -> applied w i) ->
      apply_transformations df None false w
      = (Ret (transformed_df (engine w)), printed (all_skipped w) w))
  /\ (forall reapply_all r w1,
      apply_transformations df index_cols reapply_all w = (Ret r, w1) ->
      transformed_df (engine w1) = r
      /\ apply_transformations df index_cols false w1
         = (Ret r, printed (all_skipped w1) w1)).
Proof.
  assert (Hskip : forall d ic w0, (forall i, i < length (units w0) -> applied w0 i) ->
            apply_transformations d ic false w0 =
            match create_index (drop_duplicate_columns d) ic with
            | Ret _ => (Ret (transformed_df (engine w0)), printed (all_skipped w0) w0)
            | Raise e => (Raise e, w0)
            end).
  { intros d ic w0 Hall. rewrite apply_transformations_run.
    destruct (create_index (drop_duplicate_columns d) ic) as [working|e];
      [|reflexivity].
    apply for_each_unit_skip. intros i Hi. apply Hall, elem_of_seq_0, Hi. }
  split; [apply Hskip|]. split; [intros Hall; apply (Hskip df None w Hall)|].
  intros reapply_all r w1 Hfirst. rewrite apply_transformations_run in Hfirst.
  destruct (create_index (drop_duplicate_columns df) index_cols) as [working|e] eqn:Hidx;
    [|discriminate Hfirst].
  destruct (for_each_unit_invariant _ _ _ _ _ _ _ _ (elem_of_seq_0 _) Hfirst)
    as (Hlen & _ & Hok).
  destruct (Hok r eq_refl) as [Hall Hacc].
  split; [symmetry; apply Hacc; reflexivity|].
  rewrite Hskip, Hidx.
  - rewrite <- Hacc by reflexivity. reflexivity.
  - intros i Hi. apply Hall. apply elem_of_seq. rewrite <- Hlen. lia.
Qed.

Lemma apply_skips_applied_units_witness :
  apply_transformations demo_raw (Some ["ID"]) false demo_world_applied
  = (Ret (Some demo_features), printed [AlreadyApplied 0] demo_world_applied)
  /\ apply_transformations demo_working None false demo_world_applied
     = (Ret (Some demo_features), printed [AlreadyApplied 0] demo_world_applied).
Proof.
  split.
  - destruct (apply_skips_applied_units demo_raw (Some ["ID"]) demo_world)
      as (_ & _ & H).
    apply (H false (Some demo_features) demo_world_applied eq_refl).
  - destruct (apply_skips_applied_units demo_working (Some ["ID"]) demo_world_applied)
      as (_ & H & _).
    apply H. intros i Hi.
    assert (i = 0)%nat as -> by (change (i < 1) in Hi; lia).
    eexists. split; reflexivity.
Defined.

(** ** Failure of a unit *)

Lemma Transformation_apply_Raise (i : nat) (t : Transformation) (args : dict)
    (w w2 : World) (e : exn) :
  units w !! i = Some t ->
  Transformation_apply i args w = (Raise e, w2) ->
  let f := transformation_f t in
  w2 = logged [CallKw (fn_id f) args] w
  \/ w2 = logged [CallKw (fn_id f) args; CallPos (fn_id f) (dict_values args)] w.
Proof.
  intros Hi Hrun. rewrite (Transformation_apply_run i t args w Hi) in Hrun.
  destruct (call_transformation_f (transformation_f t) args w) as [[v|e'] w1] eqn:Hcall;
    apply call_transformation_f_world in Hcall.
  - destruct (rbind (rename_output (name t) v) reset_index); [discriminate Hrun|].
    injection Hrun as _ <-. exact Hcall.
  - injection Hrun as _ <-. exact Hcall.
Qed.


Lemma apply_unit_out_of_range (df : DataFrame) (index_list : list label)
    (reapply_all : bool) (acc : option pyval) (i : nat) (w : World) :
  length (units w) <= i ->
  apply_unit df index_list reapply_all acc i w
  = (Raise (RuntimeError "no such unit"), w).
Proof.
  intros Hge. unfold apply_unit. unfold bind at 1. unfold get_unit at 1.
  unfold bind, get_engine. fold (units w). rewrite lookup_ge_None_2 by exact Hge.
  reflexivity.
Qed.





(** ** First occurrences *)

Lemma length_select_same {A B} (mask : list bool) (l1 : list A) (l2 : list B) :
  length l1 = length l2 -> length (select mask l1) = length (select mask l2).
Proof.
  revert l1 l2. induction mask as [|b mask IH]; intros [|x l1] [|y l2] Hlen;
    simpl in *; try discriminate; try reflexivity.
  destruct b; simpl; auto.
Qed.

Lemma select_map {A B} (f : A -> B) (mask : list bool) (l : list A) :
  select mask (map f l) = map f (select mask l).
Proof.
  revert l. induction mask as [|b mask IH]; intros [|x l]; simpl; try reflexivity.
  destruct b; simpl; rewrite IH; reflexivity.
Qed.

Lemma duplicated_from_map {A B} `{EqDecision A} `{EqDecision B} (f : A -> B)
    (seen l : list A) :
  (forall x y, f x = f y -> x = y) ->
  duplicated_from (map f seen) (map f l) = duplicated_from seen l.
Proof.
  intros Hinj. revert seen. induction l as [|x l IH]; intros seen; simpl; [reflexivity|].
  rewrite <- (IH (x :: seen)). f_equal.
  apply bool_decide_ext. change (map f seen) with (f <$> seen).
  rewrite list_elem_of_fmap. split.
  - intros (y & Hxy & Hy). apply Hinj in Hxy. subst y. exact Hy.
  - intros Hx. exists x. auto.
Qed.

(** The survivors of the mask are the elements not seen before, once each. *)
Lemma select_first_occurrences {A} `{EqDecision A} (seen l : list A) :
  let kept := select (map negb (duplicated_from seen l)) l in
  NoDup kept
  /\ (forall x, x ∈ kept <-> x ∈ l /\ x ∉ seen).
Proof.
  revert seen. induction l as [|x l IH]; intros seen; simpl.
  - split; [constructor|]. intros x. split; [intros H; inversion H|intros [H _]; inversion H].
  - destruct (IH (x :: seen)) as [Hnd Hiff]. simpl in Hnd, Hiff.
    destruct (decide (x ∈ seen)) as [Hin|Hnin].
    + rewrite bool_decide_eq_true_2 by assumption. simpl. split; [exact Hnd|].
      intros y. split.
      * intros Hy. apply Hiff in Hy. destruct Hy as [Hy Hs].
        apply not_elem_of_cons in Hs. split; [right; exact Hy|apply Hs].
      * intros [Hy Hs]. apply Hiff. apply elem_of_cons in Hy.
        destruct Hy as [-> | Hy]; [contradiction|].
        split; [exact Hy|]. apply not_elem_of_cons. split; [|exact Hs].
        intros ->. contradiction.
    + rewrite bool_decide_eq_false_2 by assumption. simpl. split.
      * constructor; [|exact Hnd]. intros Hx. apply Hiff in Hx.
        destruct Hx as [_ Hx]. apply Hx. left.
      * intros y. split.
        -- intros Hy. apply elem_of_cons in Hy. destruct Hy as [-> | Hy].
           ++ split; [left|exact Hnin].
           ++ apply Hiff in Hy. destruct Hy as [Hy Hs].
              apply not_elem_of_cons in Hs. split; [right; exact Hy|apply Hs].
        -- intros [Hy Hs]. apply elem_of_cons.
           destruct (decide (y = x)) as [-> | Hne]; [left; reflexivity|right].
           apply Hiff. apply elem_of_cons in Hy.
           destruct Hy as [-> | Hy]; [contradiction|].
           split; [exact Hy|]. apply not_elem_of_cons. auto.
Qed.

(** A position is marked as duplicated exactly when its element was seen
    before or stands at an earlier position. *)
Lemma duplicated_from_lookup {A} `{EqDecision A} (seen l : list A) (i : nat) (x : A) :
  l !! i = Some x ->
  exists b, duplicated_from seen l !! i = Some b
    /\ (b = true <-> x ∈ seen \/ exists j, j < i /\ l !! j = Some x).
Proof.
  revert seen i. induction l as [|y l IH]; intros seen i Hi; [discriminate Hi|].
  destruct i as [|i]; simpl in *.
  - injection Hi as ->. eexists. split; [reflexivity|].
    rewrite bool_decide_eq_true. split; [auto|].
    intros [H | (j & Hj & _)]; [exact H|lia].
  - destruct (IH (y :: seen) i Hi) as (b & Hb & Hiff). exists b. split; [exact Hb|].
    rewrite Hiff. split.
    + intros [Hs | (j & Hj & Hl)].
      * apply elem_of_cons in Hs. destruct Hs as [-> | Hs]; [|left; exact Hs].
        right. exists 0. split; [lia|reflexivity].
      * right. exists (S j). split; [lia|exact Hl].
    + intros [Hs | (j & Hj & Hl)]; [left; right; exact Hs|].
      destruct j as [|j]; simpl in Hl.
      * injection Hl as ->. left. left.
      * right. exists j. split; [lia|exact Hl].
Qed.

(** ** Columns of the working table *)

Lemma filter_map_columns (P : label * list scalar -> Prop) `{forall x, Decision (P x)}
    (g : list scalar -> list scalar) (cols : list (label * list scalar)) :
  (forall col, P (fst col, g (snd col)) <-> P col) ->
  filter P (map (fun col => (fst col, g (snd col))) cols)
  = map (fun col => (fst col, g (snd col))) (filter P cols).
Proof.
  intros HP. induction cols as [|col cols IH]; [reflexivity|]. simpl.
  destruct (decide (P col)) as [Hcol|Hcol].
  - rewrite (filter_cons_True P col cols) by exact Hcol.
    rewrite filter_cons_True by (apply HP; exact Hcol).
    simpl. rewrite IH. reflexivity.
  - rewrite (filter_cons_False P col cols) by exact Hcol.
    rewrite filter_cons_False by (rewrite HP; exact Hcol).
    exact IH.
Qed.

(** Dropping repeated column names keeps, for every name, its first column. *)
Lemma columns_named_select (c : label) (seen : list label)
    (cols : list (label * list scalar)) :
  filter (fun col => fst col = c)
    (select (map negb (duplicated_from seen (map fst cols))) cols)
  = if decide (c ∈ seen) then []
    else match filter (fun col => fst col = c) cols with
         | col :: _ => [col]
         | [] => []
         end.
Proof.
  revert seen. induction cols as [|col cols IH]; intros seen; simpl.
  - destruct (decide (c ∈ seen)); reflexivity.
  - destruct (decide (fst col ∈ seen)) as [Hin|Hnin].
    + rewrite bool_decide_eq_true_2 by exact Hin. simpl. rewrite IH.
      destruct (decide (fst col = c)) as [Heq|Hne].
      * subst c. rewrite !decide_True; [reflexivity|exact Hin|right; exact Hin].
      * rewrite filter_cons_False by exact Hne.
        destruct (decide (c ∈ seen)) as [Hc|Hc].
        -- rewrite decide_True by (right; exact Hc). reflexivity.
        -- rewrite decide_False; [reflexivity|].
           intros Hc'. apply elem_of_cons in Hc'. destruct Hc'; congruence.
    + rewrite bool_decide_eq_false_2 by exact Hnin. simpl.
      destruct (decide (fst col = c)) as [Heq|Hne].
      * rewrite !filter_cons_True by exact Heq. rewrite IH. subst c.
        rewrite decide_True by left. rewrite decide_False by exact Hnin. reflexivity.
      * rewrite !filter_cons_False by exact Hne. rewrite IH.
        destruct (decide (c ∈ seen)) as [Hc|Hc].
        -- rewrite decide_True by (right; exact Hc). reflexivity.
        -- rewrite decide_False; [reflexivity|].
           intros Hc'. apply elem_of_cons in Hc'. destruct Hc'; congruence.
Qed.

Lemma columns_named_drop_duplicate_columns (raw : DataFrame) (c : label) :
  c ∈ columns raw ->
  columns_named c (drop_duplicate_columns raw) = [(c, column_values raw c)].
Proof.
  intros Hc. unfold columns_named, drop_duplicate_columns, duplicated, columns. simpl.
  rewrite columns_named_select. rewrite decide_False by (intros H; inversion H).
  destruct (columns_named_cons c raw Hc) as (col & cols & Heq & Hfst).
  unfold column_values. unfold columns_named in Heq |- *. rewrite Heq.
  destruct col as [n vs]. simpl in *. subst n. reflexivity.
Qed.

(** ** Row keys *)

Lemma rmap_Ret_map {A B} (f : A -> result B) (g : A -> B) (l : list A) :
  (forall x, x ∈ l -> f x = Ret (g x)) -> rmap f l = Ret (map g l).
Proof.
  induction l as [|x l IH]; intros Hl; simpl; [reflexivity|].
  rewrite (Hl x) by left. simpl. rewrite IH; [reflexivity|].
  intros y Hy. apply Hl. right. exact Hy.
Qed.

Lemma columns_named_elem (c : label) (d : DataFrame) :
  columns_named c d <> [] -> c ∈ columns d.
Proof.
  intros Hne. destruct (decide (c ∈ columns d)) as [Hc|Hc]; [exact Hc|].
  destruct Hne. apply columns_named_nil, Hc.
Qed.

Lemma elem_of_missing_columns (d : DataFrame) (cs : list string) (c : string) :
  c ∈ missing_columns d cs <-> c ∈ cs /\ VStr c ∉ columns d.
Proof.
  unfold missing_columns, unique_first, duplicated.
  destruct (select_first_occurrences [] (filter (fun c => VStr c ∉ columns d) cs))
    as [_ Hiff].
  rewrite Hiff, list_elem_of_filter. split.
  - intros [[H1 H2] _]. auto.
  - intros [H1 H2]. split; [auto|]. intros H. inversion H.
Qed.

Lemma missing_columns_nil (d : DataFrame) (cs : list string) :
  (forall c, c ∈ cs -> VStr c ∈ columns d) -> missing_columns d cs = [].
Proof.
  intros Hall. destruct (missing_columns d cs) as [|c l] eqn:Hm; [reflexivity|].
  assert (Hc : c ∈ missing_columns d cs) by (rewrite Hm; left).
  apply elem_of_missing_columns in Hc. destruct Hc as [Hc Hnot].
  destruct Hnot. apply Hall, Hc.
Qed.

Lemma frame_getitem_list_cols (d : DataFrame) (cs : list string)
    (v : string -> list scalar) :
  (forall c, c ∈ cs -> columns_named (VStr c) d = [(VStr c, v c)]) ->
  frame_getitem_list d cs = Ret (mkFrame (d_index d) (map (fun c => (VStr c, v c)) cs)).
Proof.
  intros Hcs. unfold frame_getitem_list.
  rewrite (missing_columns_nil d cs).
  - do 2 f_equal. induction cs as [|c cs IH]; [reflexivity|].
    simpl. rewrite (Hcs c) by left. simpl. f_equal.
    apply IH. intros c' Hc'. apply Hcs. right. exact Hc'.
  - intros c Hc. apply columns_named_elem. rewrite (Hcs c Hc). discriminate.
Qed.

Lemma filter_row_entry (v : string -> scalar) (l : list string) (c : string) :
  NoDup l -> c ∈ l ->
  filter (fun e : label * scalar => fst e = VStr c) (map (fun c' => (VStr c', v c')) l)
  = [(VStr c, v c)].
Proof.
  induction 1 as [|c' l Hnin Hnd IH]; intros Hc; [inversion Hc|]. simpl.
  destruct (decide (c' = c)) as [->|Hne].
  - rewrite filter_cons_True by reflexivity. f_equal.
    clear IH Hc Hnd. induction l as [|c'' l IH]; [reflexivity|]. simpl.
    apply not_elem_of_cons in Hnin. destruct Hnin as [Hne Hnin].
    rewrite filter_cons_False by (simpl; congruence). apply IH, Hnin.
  - rewrite filter_cons_False by (simpl; congruence). apply IH.
    apply elem_of_cons in Hc. destruct Hc as [->|Hc]; [contradiction|exact Hc].
Qed.

Lemma row_getitem_list_nodup (v : string -> scalar) (l cs : list string) :
  NoDup l -> (forall c, c ∈ cs -> c ∈ l) ->
  row_getitem_list (map (fun c => (VStr c, v c)) l) cs = map v cs.
Proof.
  intros Hnd Hcs. unfold row_getitem_list.
  induction cs as [|c cs IH]; [reflexivity|]. simpl.
  rewrite filter_row_entry by (auto; apply Hcs; left). simpl. f_equal.
  apply IH. intros c' Hc'. apply Hcs. right. exact Hc'.
Qed.

Lemma str_join_strings (ss : list string) :
  str_join (map VStr ss) = Ret (concat_strings ss).
Proof. induction ss as [|s ss IH]; simpl; [|rewrite IH]; reflexivity. Qed.

Lemma nth_map_VStr (i : nat) (ss : list string) :
  i < length ss -> nth i (map VStr ss) VNaN = VStr (nth i ss "").
Proof.
  intros Hi. rewrite (nth_indep _ VNaN (VStr "")) by (rewrite length_map; exact Hi).
  apply map_nth.
Qed.

(** The key of row [i] is the concatenation of the identity values. *)
Lemma row_key_strings (idx : list label) (cell : string -> list string)
    (index_cols : list string) (i : nat) :
  NoDup index_cols ->
  (forall c, c ∈ index_cols -> i < length (cell c)) ->
  row_key (mkFrame idx (map (fun c => (VStr c, map VStr (cell c))) index_cols))
    index_cols i
  = Ret (concat_strings (map (fun c => nth i (cell c) "") index_cols)).
Proof.
  intros Hnd Hlen. unfold row_key, frame_row. simpl. rewrite map_map. simpl.
  rewrite (row_getitem_list_nodup (fun c => nth i (map VStr (cell c)) VNaN))
    by auto.
  rewrite <- str_join_strings. f_equal. rewrite map_map.
  apply map_ext_in. intros c Hc. apply nth_map_VStr, Hlen.
  apply list_elem_of_In. exact Hc.
Qed.

(** ** The identity column *)

Lemma d_index_frame_setitem (d : DataFrame) (c : label) (vals : list scalar) :
  d_index (frame_setitem d c vals) = d_index d.
Proof. unfold frame_setitem. destruct (has_column d c); reflexivity. Qed.

Lemma column_values_frame_setitem (d : DataFrame) (c : label) (vals : list scalar) :
  column_values (frame_setitem d c vals) c = vals.
Proof.
  unfold frame_setitem, has_column, column_values, columns_named, columns.
  destruct (decide (c ∈ map fst (d_columns d))) as [Hin|Hnin].
  - rewrite bool_decide_eq_true_2 by exact Hin. simpl.
    induction (d_columns d) as [|col cols IH]; [inversion Hin|]. simpl.
    destruct (decide (fst col = c)) as [Heq|Hne].
    + rewrite filter_cons_True by reflexivity. reflexivity.
    + rewrite filter_cons_False by exact Hne. apply IH.
      simpl in Hin. apply elem_of_cons in Hin.
      destruct Hin as [->|Hin]; [contradiction|exact Hin].
  - rewrite bool_decide_eq_false_2 by exact Hnin. simpl. rewrite filter_app.
    fold (columns d) in Hnin. fold (columns_named c d).
    rewrite (columns_named_nil c d Hnin). simpl.
    rewrite filter_cons_True by reflexivity. reflexivity.
Qed.

Lemma other_columns_frame_setitem (d : DataFrame) (c : label) (vals : list scalar) :
  filter (fun col => fst col <> c) (d_columns (frame_setitem d c vals))
  = filter (fun col => fst col <> c) (d_columns d).
Proof.
  unfold frame_setitem. destruct (has_column d c); simpl.
  - induction (d_columns d) as [|col cols IH]; [reflexivity|]. simpl.
    destruct (decide (fst col = c)) as [Heq|Hne].
    + rewrite !filter_cons_False by (simpl; auto). exact IH.
    + rewrite !filter_cons_True by exact Hne. rewrite IH. reflexivity.
  - rewrite filter_app. rewrite (filter_cons_False _ (c, vals)) by (simpl; auto).
    rewrite filter_nil. apply app_nil_r.
Qed.

Lemma column_values_select_rows (mask : list bool) (d : DataFrame) (c : label) :
  column_values (frame_select_rows mask d) c = select mask (column_values d c).
Proof.
  unfold column_values, columns_named, frame_select_rows. simpl.
  rewrite filter_map_columns by reflexivity.
  destruct (filter (fun col => fst col = c) (d_columns d)) as [|col cols]; simpl;
    [destruct mask; reflexivity|reflexivity].
Qed.

Lemma length_row_keys (cell : string -> list string) (index_cols : list string) (n : nat) :
  length (row_keys cell index_cols n) = n.
Proof. unfold row_keys. rewrite length_map, length_seq. reflexivity. Qed.

Lemma rmap_length {A B} (f : A -> result B) (l : list A) (bs : list B) :
  rmap f l = Ret bs -> length bs = length l.
Proof.
  revert bs. induction l as [|x l IH]; intros bs; simpl.
  - intros [= <-]. reflexivity.
  - destruct (f x); [|discriminate]. simpl.
    destruct (rmap f l) as [bs'|]; [|discriminate]. simpl.
    intros [= <-]. simpl. f_equal. apply IH. reflexivity.
Qed.

Lemma apply_row_key_rows (sub : DataFrame) (index_cols : list string) (n : nat) :
  n <> 0 \/ length (d_columns sub) = 1 ->
  apply_row_key sub index_cols n = rmap (row_key sub index_cols) (seq 0 n).
Proof.
  intros H. unfold apply_row_key. rewrite decide_False; [reflexivity|].
  intros [Hn Hcols]. destruct H; contradiction.
Qed.

Lemma apply_row_key_length (sub : DataFrame) (index_cols : list string) (n : nat)
    (keys : list string) :
  apply_row_key sub index_cols n = Ret keys -> length keys = n.
Proof.
  unfold apply_row_key. destruct (decide _); [discriminate|].
  intros H. apply rmap_length in H. rewrite length_seq in H. exact H.
Qed.

(** The working table and the row labels computed from string-valued
    identity columns. *)
Lemma create_index_strings (d : DataFrame) (index_cols : list string)
    (cell : string -> list string) :
  index_cols <> [] ->
  NoDup index_cols ->
  d_index d <> [] \/ length index_cols = 1 ->
  (forall c, c ∈ index_cols ->
     columns_named (VStr c) d = [(VStr c, map VStr (cell c))]
     /\ length (cell c) = length (d_index d)) ->
  let keys := row_keys cell index_cols (length (d_index d)) in
  create_index d (Some index_cols)
  = Ret (mkFrame (map VStr (select (first_rows keys) keys))
           (map (fun col => (fst col, select (first_rows keys) (snd col)))
              (filter (fun col => fst col <> VStr "INDEX") (d_columns d))),
         map VStr (select (first_rows keys) keys)).
Proof.
  intros Hne Hnd Hrows Hcols keys. unfold create_index.
  destruct index_cols as [|c0 cs]; [contradiction|].
  rewrite (frame_getitem_list_cols d (c0 :: cs) (fun c => map VStr (cell c)))
    by (intros c Hc; apply Hcols, Hc).
  cbn [rbind].
  rewrite apply_row_key_rows.
  2:{ destruct Hrows as [Hrows|Hone]; [left|right].
      - destruct (d_index d); [contradiction|discriminate].
      - cbn [d_columns]. rewrite length_map. exact Hone. }
  rewrite (rmap_Ret_map _
             (fun i => concat_strings (map (fun c => nth i (cell c) "") (c0 :: cs)))).
  2:{ intros i Hi. apply elem_of_seq_0 in Hi. apply row_key_strings; [exact Hnd|].
      intros c Hc. destruct (Hcols c Hc) as [_ ->]. exact Hi. }
  fold (row_keys cell (c0 :: cs) (length (d_index d))). fold keys. cbn [rbind].
  unfold drop_duplicates. rewrite column_values_frame_setitem.
  unfold duplicated. rewrite (duplicated_from_map VStr [] keys) by congruence.
  fold (duplicated keys). fold (first_rows keys).
  rewrite column_values_select_rows, column_values_frame_setitem, select_map.
  unfold set_index. cbn [d_index frame_select_rows].
  rewrite d_index_frame_setitem.
  rewrite decide_True.
  2:{ rewrite length_map. apply length_select_same. apply length_row_keys. }
  cbn [rbind]. unfold frame_delitem, frame_select_rows. cbn [d_index d_columns].
  rewrite filter_map_columns by reflexivity.
  rewrite other_columns_frame_setitem. reflexivity.
Qed.

(** ** Row labels of the running result *)

Lemma as_frames_index (objs : list pyval) (k : Z) (fs : list DataFrame) :
  as_frames k objs = Ret fs -> map d_index fs = map index_of objs.
Proof.
  revert k fs. induction objs as [|o objs IH]; intros k fs; simpl.
  - intros [= <-]. reflexivity.
  - destruct o as [s|d|v|l]; try discriminate.
    + destruct (s_name s).
      * destruct (as_frames k objs) as [fs'|] eqn:Hrest; [|discriminate].
        intros [= <-]. simpl. f_equal. eapply IH, Hrest.
      * destruct (as_frames (k + 1) objs) as [fs'|] eqn:Hrest; [|discriminate].
        intros [= <-]. simpl. f_equal. eapply IH, Hrest.
    + destruct (as_frames k objs) as [fs'|] eqn:Hrest; [|discriminate].
      intros [= <-]. simpl. f_equal. eapply IH, Hrest.
Qed.

Lemma concat_axis1_pair_index (a t : pyval) (idx : list label) (d : DataFrame) :
  index_of a = idx -> index_of t = idx ->
  concat_axis1 [a; t] = Ret d -> d_index d = idx.
Proof.
  intros Ha Ht. unfold concat_axis1.
  destruct (as_frames 0 [a; t]) as [fs|] eqn:Hfs; [|discriminate].
  apply as_frames_index in Hfs. simpl in Hfs. rewrite Ha, Ht in Hfs.
  cbn [rbind]. rewrite Hfs. simpl.
  rewrite bool_decide_eq_true_2 by reflexivity. simpl.
  intros [= <-]. reflexivity.
Qed.

Lemma set_index_index (v v' : pyval) (idx : list label) :
  set_index v idx = Ret v' -> index_of v' = idx.
Proof.
  unfold set_index. destruct v as [s|d|x|l]; try discriminate.
  - destruct (decide (length idx = length (s_index s))); [|discriminate].
    intros [= <-]. reflexivity.
  - destruct (decide (length idx = length (d_index d))); [|discriminate].
    intros [= <-]. reflexivity.
Qed.

Lemma merge_fragment_index (idx : list label) (acc : option pyval) (tdf new : pyval) :
  (forall a, acc = Some a -> index_of a = idx) ->
  merge_fragment idx acc tdf = Ret new -> index_of new = idx.
Proof.
  intros Hacc. unfold merge_fragment.
  destruct (set_index tdf idx) as [tdf'|] eqn:Hset; [|discriminate].
  apply set_index_index in Hset. cbn [rbind].
  destruct acc as [a|].
  - destruct (concat_axis1 [a; tdf']) as [d|] eqn:Hcat; [|discriminate].
    intros [= <-]. simpl.
    apply (concat_axis1_pair_index a tdf' idx d (Hacc a eq_refl) Hset Hcat).
  - intros [= <-]. exact Hset.
Qed.

Lemma apply_unit_index (df : DataFrame) (idx : list label) (reapply_all : bool)
    (acc acc' : option pyval) (i : nat) (w w' : World) :
  (forall a, acc = Some a -> index_of a = idx) ->
  apply_unit df idx reapply_all acc i w = (Ret acc', w') ->
  forall a, acc' = Some a -> index_of a = idx.
Proof.
  intros Hacc Hrun.
  destruct (units w !! i) as [t|] eqn:Hi.
  2:{ rewrite apply_unit_out_of_range in Hrun; [discriminate Hrun|].
      apply lookup_ge_None_1, Hi. }
  rewrite (apply_unit_run _ _ _ _ _ _ _ Hi) in Hrun.
  destruct (transformation_applied t && negb reapply_all).
  { injection Hrun as <- _. exact Hacc. }
  destruct (get_args t df acc) as [args|]; [|discriminate Hrun].
  destruct (Transformation_apply i args w) as [[tdf|] w1]; [|discriminate Hrun].
  destruct (merge_fragment idx acc tdf) as [new|] eqn:Hmerge; [|discriminate Hrun].
  injection Hrun as <- _. intros a [= <-].
  eapply merge_fragment_index; eauto.
Qed.

Lemma for_each_unit_index (df : DataFrame) (idx : list label) (reapply_all : bool)
    (l : list nat) (acc acc' : option pyval) (w w' : World) :
  (forall a, acc = Some a -> index_of a = idx) ->
  for_each_unit df idx reapply_all l acc w = (Ret acc', w') ->
  forall a, acc' = Some a -> index_of a = idx.
Proof.
  revert acc w. induction l as [|i l IH]; intros acc w Hacc; simpl.
  - intros [= <- _]. exact Hacc.
  - unfold bind.
    destruct (apply_unit df idx reapply_all acc i w) as [[a1|] w1] eqn:Hstep;
      [|discriminate].
    apply IH. eapply apply_unit_index; eauto.
Qed.

(** Whatever the outcome of a unit, the table stored in the engine keeps
    the labels of the call. *)
Lemma apply_unit_stored_index (df : DataFrame) (idx : list label) (reapply_all : bool)
    (acc : option pyval) (i : nat) (w w' : World) (r : result (option pyval)) :
  (forall a, acc = Some a -> index_of a = idx) ->
  (forall a, transformed_df (engine w) = Some a -> index_of a = idx) ->
  apply_unit df idx reapply_all acc i w = (r, w') ->
  forall a, transformed_df (engine w') = Some a -> index_of a = idx.
Proof.
  intros Hacc Heng Hrun.
  destruct (units w !! i) as [t|] eqn:Hi.
  2:{ rewrite apply_unit_out_of_range in Hrun by (apply lookup_ge_None_1, Hi).
      injection Hrun as _ <-. exact Heng. }
  destruct (apply_unit_cases _ _ _ _ _ _ _ _ _ Hi Hrun)
    as [(_ & _ & ->) | [(_ & e & evs & _ & [-> | ->])
                       | (_ & new & evs & -> & ->)]]; try exact Heng.
  intros a [= <-].
  apply (apply_unit_index _ _ _ _ _ _ _ _ Hacc Hrun new eq_refl).
Qed.

Lemma for_each_unit_stored_index (df : DataFrame) (idx : list label) (reapply_all : bool)
    (l : list nat) (acc : option pyval) (w w' : World) (r : result (option pyval)) :
  (forall a, acc = Some a -> index_of a = idx) ->
  (forall a, transformed_df (engine w) = Some a -> index_of a = idx) ->
  for_each_unit df idx reapply_all l acc w = (r, w') ->
  forall a, transformed_df (engine w') = Some a -> index_of a = idx.
Proof.
  revert acc w. induction l as [|i l IH]; intros acc w Hacc Heng; simpl.
  - intros [= _ <-]. exact Heng.
  - unfold bind.
    destruct (apply_unit df idx reapply_all acc i w) as [[a1|e] w1] eqn:Hstep.
    + apply IH.
      * exact (apply_unit_index _ _ _ _ _ _ _ _ Hacc Hstep).
      * exact (apply_unit_stored_index _ _ _ _ _ _ _ _ Hacc Heng Hstep).
    + intros [= _ <-]. exact (apply_unit_stored_index _ _ _ _ _ _ _ _ Hacc Heng Hstep).
Qed.

(** ** Row identity *)

(** C3, the claim as stated fails: the values of the identity columns are
    joined as they are, without conversion to strings.  On the raw table of
    the specification's own scenario, whose identities are the integers 1, 2,
    2, the call raises a [TypeError] and builds no row key at all. *)
Lemma integer_identity_raises :
  apply_transformations spec_raw (Some ["ID"]) false demo_world
  = (Raise (TypeError "sequence item: expected str instance"), demo_world).
Proof. reflexivity. Qed.

(** C3, amended.  For a raw table and a non-empty list of distinct identity
    columns whose values are all strings, the table having at least one row
    or the list a single column:
    - the key of a row is the concatenation of the values of the identity
      columns in that row;
    - the row labels of the call are the keys in order of first occurrence,
      without repetition, and every key of the table is among them;
    - the working raw table keeps exactly the rows that are the first with
      their key, under those labels;
    - a call on an engine that holds no accumulated table returns a table
      with those row labels. *)
Theorem row_identity_of_string_columns (raw : DataFrame) (index_cols : list string)
    (cell : string -> list string) :
  index_cols <> [] ->
  NoDup index_cols ->
  d_index raw <> [] \/ length index_cols = 1 ->
  (forall c, c ∈ index_cols ->
     VStr c ∈ columns raw
     /\ column_values raw (VStr c) = map VStr (cell c)
     /\ length (cell c) = length (d_index raw)) ->
  let keys := row_keys cell index_cols (length (d_index raw)) in
  let index_list := map VStr (select (first_rows keys) keys) in
  let working :=
    mkFrame index_list
      (map (fun col => (fst col, select (first_rows keys) (snd col)))
         (filter (fun col => fst col <> VStr "INDEX")
            (d_columns (drop_duplicate_columns raw)))) in
  create_index (drop_duplicate_columns raw) (Some index_cols) = Ret (working, index_list)
  /\ NoDup index_list
  /\ (forall k, VStr k ∈ index_list <-> k ∈ keys)
  /\ (forall i k, keys !! i = Some k ->
        exists b, first_rows keys !! i = Some b
          /\ (b = true <-> forall j, j < i -> keys !! j <> Some k))
  /\ (forall reapply_all w v w',
        transformed_df (engine w) = None ->
        apply_transformations raw (Some index_cols) reapply_all w = (Ret (Some v), w') ->
        index_of v = index_list).
Proof.
  intros Hne Hnd Hrows Hcols keys index_list working.
  assert (Hcreate : create_index (drop_duplicate_columns raw) (Some index_cols)
                    = Ret (working, index_list)).
  { apply (create_index_strings (drop_duplicate_columns raw) index_cols cell Hne Hnd
             Hrows).
    intros c Hc. destruct (Hcols c Hc) as (Hin & Hvals & Hlen).
    rewrite columns_named_drop_duplicate_columns by exact Hin.
    rewrite Hvals. split; [reflexivity|exact Hlen]. }
  destruct (select_first_occurrences [] keys) as [Hkept_nd Hkept_in].
  fold (duplicated keys) in Hkept_nd, Hkept_in. fold (first_rows keys) in Hkept_nd, Hkept_in.
  repeat apply conj.
  - exact Hcreate.
  - assert (Inj (=) (=) VStr) by (intros x y [= ->]; reflexivity).
    apply (NoDup_fmap_2 VStr). exact Hkept_nd.
  - intros k. unfold index_list. change (map VStr ?l) with (VStr <$> l).
    rewrite list_elem_of_fmap. split.
    + intros (k' & [= <-] & Hk). apply Hkept_in in Hk. apply Hk.
    + intros Hk. exists k. split; [reflexivity|]. apply Hkept_in.
      split; [exact Hk|]. intros H. inversion H.
  - intros i k Hi.
    destruct (duplicated_from_lookup [] keys i k Hi) as (b & Hb & Hiff).
    exists (negb b). split.
    + unfold first_rows, duplicated. change (map negb ?l) with (negb <$> l).
      rewrite list_lookup_fmap, Hb. reflexivity.
    + rewrite negb_true_iff, <- not_true_iff_false, Hiff. split.
      * intros Hnone j Hj Hjk. apply Hnone. right. exists j. auto.
      * intros Hnone [H | (j & Hj & Hjk)]; [inversion H|]. exact (Hnone j Hj Hjk).
  - intros reapply_all w v w' Hnone Hrun.
    rewrite apply_transformations_run, Hcreate, Hnone in Hrun. simpl in Hrun.
    eapply for_each_unit_index; [|exact Hrun|reflexivity]. intros a [=].
Qed.

Lemma row_identity_of_string_columns_witness :
  create_index (drop_duplicate_columns demo_raw) (Some ["ID"])
  = Ret (demo_working, [VStr "a"; VStr "b"])
  /\ index_of demo_features = [VStr "a"; VStr "b"].
Proof.
  assert (Hcols : forall c, c ∈ ["ID"] ->
            VStr c ∈ columns demo_raw
            /\ column_values demo_raw (VStr c) = map VStr (demo_cell c)
            /\ length (demo_cell c) = length (d_index demo_raw)).
  { intros c Hc. apply list_elem_of_singleton in Hc. subst c.
    split; [left|]. split; reflexivity. }
  destruct (row_identity_of_string_columns demo_raw ["ID"] demo_cell
              ltac:(discriminate)
              ltac:(apply NoDup_singleton)
              ltac:(left; discriminate)
              Hcols) as (Hcreate & _ & _ & _ & Hout).
  split; [exact Hcreate|].
  apply (Hout false demo_world demo_features demo_world_applied eq_refl eq_refl).
Defined.

(** ** Row labels of the output *)

(** C2, the claim as stated fails.  The engine below holds the table of an
    earlier call, labelled [a], [b].  A call on another raw table, whose
    row identity is the single label [c], runs the newly registered unit,
    relabels its fragment with [c] and puts it beside the table of the
    earlier call: the accumulated table has the rows [a], [b], [c], not
    the row ordering of the call. *)
Lemma accumulated_rows_keep_earlier_labels :
  create_index (drop_duplicate_columns other_raw) (Some ["ID"])
  = Ret (mkFrame [VStr "c"] [(VStr "ID", [VStr "c"]); (VStr "Amount", [VInt 900])],
         [VStr "c"])
  /\ fst (apply_transformations other_raw (Some ["ID"]) false stale_world)
     = Ret (Some (PFrame (mkFrame [VStr "a"; VStr "b"; VStr "c"]
                            [(VStr "High", [VInt 0; VInt 1; VNaN]);
                             (VStr "P_0", [VNaN; VNaN; VInt 900]);
                             (VStr "P_1", [VNaN; VNaN; VInt 0])])))
  /\ call_log (snd (apply_transformations other_raw (Some ["ID"]) false stale_world))
     = call_log stale_world ++
       [CallKw 2 [("ser1", PSeries (mkSeries (Some (VStr "Amount")) [VStr "c"]
                                      [VInt 900]))]].
Proof. repeat split. Qed.

Lemma output_fragment_with_labels (n : out_name) (v : pyval) (labels : list label) :
  length labels = length (index_of v) ->
  output_fragment n (with_labels v labels) = output_fragment n v.
Proof.
  intros Hlen. unfold output_fragment, rename_output, reset_index.
  destruct n as [|N|l]; destruct v as [s|d|x|xs]; simpl in *;
    try (rewrite ?Hlen; reflexivity).
  - destruct l as [|n [|n' l]]; simpl; rewrite ?Hlen; reflexivity.
  - destruct (decide (length l = length (d_columns d))); simpl;
      rewrite ?Hlen; reflexivity.
Qed.

Lemma output_fragment_index (n : out_name) (v tdf : pyval) :
  output_fragment n v = Ret tdf ->
  index_of tdf = default_index (length (index_of v)).
Proof.
  unfold output_fragment, rename_output, reset_index.
  destruct n as [|N|l]; destruct v as [s|d|x|xs]; simpl; try discriminate;
    try (intros [= <-]; reflexivity).
  - destruct l as [|n [|n' l]]; simpl; try discriminate. intros [= <-]. reflexivity.
  - destruct (decide (length l = length (d_columns d))); simpl; [|discriminate].
    intros [= <-]. reflexivity.
Qed.

(** C2, amended.  In a call whose row identity is [index_list]:
    - the fragment of an executed unit does not depend on the row labels of
      the value the function returned, only on the order of its rows, and is
      handed over under the positions 0, 1, ...;
    - what an executed unit merges is its fragment relabelled with
      [index_list], whatever the running result is;
    - when the running result is absent or already labelled [index_list], the
      running result after the unit is labelled [index_list];
    - hence, when the accumulated table of the engine is absent or already
      labelled [index_list] at the start of the call, the table the call
      returns and stores is labelled [index_list], and so is the table the
      engine is left with by a call that raises. *)
Theorem output_follows_call_labels (raw : DataFrame) (index_cols : option (list string))
    (reapply_all : bool) (w : World) (working : DataFrame * list label) :
  create_index (drop_duplicate_columns raw) index_cols = Ret working ->
  let index_list := snd working in
  (forall i t args w0 v w1,
     units w0 !! i = Some t ->
     call_transformation_f (transformation_f t) args w0 = (Ret v, w1) ->
     (forall labels, length labels = length (index_of v) ->
        output_fragment (name t) (with_labels v labels) = output_fragment (name t) v)
     /\ (forall tdf, output_fragment (name t) v = Ret tdf ->
           Transformation_apply i args w0 = (Ret tdf, mark_applied i w1)
           /\ index_of tdf = default_index (length (index_of v))))
  /\ (forall i t acc new w0 w1,
        units w0 !! i = Some t ->
        executed t reapply_all ->
        apply_unit (fst working) index_list reapply_all acc i w0 = (Ret (Some new), w1) ->
        exists args tdf w2 tdf',
          get_args t (fst working) acc = Ret args
          /\ Transformation_apply i args w0 = (Ret tdf, w2)
          /\ set_index tdf index_list = Ret tdf'
          /\ index_of tdf' = index_list
          /\ match acc with
             | None => new = tdf'
             | Some a => exists d, concat_axis1 [a; tdf'] = Ret d /\ new = PFrame d
             end)
  /\ (forall i acc acc' w0 w1,
        (forall a, acc = Some a -> index_of a = index_list) ->
        apply_unit (fst working) index_list reapply_all acc i w0 = (Ret acc', w1) ->
        forall a, acc' = Some a -> index_of a = index_list)
  /\ (forall v w',
        (forall a, transformed_df (engine w) = Some a -> index_of a = index_list) ->
        apply_transformations raw index_cols reapply_all w = (Ret (Some v), w') ->
        index_of v = index_list /\ transformed_df (engine w') = Some v)
  /\ (forall r w',
        (forall a, transformed_df (engine w) = Some a -> index_of a = index_list) ->
        apply_transformations raw index_cols reapply_all w = (r, w') ->
        forall a, transformed_df (engine w') = Some a -> index_of a = index_list).
Proof.
  intros Hidx index_list. repeat apply conj.
  - intros i t args w0 v w1 Hi Hcall. split.
    + intros labels Hlen. apply output_fragment_with_labels, Hlen.
    + intros tdf Hfrag. split; [|eapply output_fragment_index, Hfrag].
      rewrite (Transformation_apply_run i t args w0 Hi), Hcall.
      unfold output_fragment in Hfrag. rewrite Hfrag. reflexivity.
  - intros i t acc new w0 w1 Hi Hex Hrun.
    rewrite (apply_unit_run _ _ _ _ _ _ _ Hi) in Hrun. unfold executed in Hex.
    rewrite Hex in Hrun.
    destruct (get_args t (fst working) acc) as [args|] eqn:Hargs; [|discriminate Hrun].
    destruct (Transformation_apply i args w0) as [[tdf|] w2] eqn:Happly;
      [|discriminate Hrun].
    unfold merge_fragment in Hrun.
    destruct (set_index tdf index_list) as [tdf'|] eqn:Hset; [|discriminate Hrun].
    exists args, tdf, w2, tdf'.
    do 3 (split; [first [reflexivity | assumption]|]).
    split; [eapply set_index_index, Hset|].
    cbn [rbind] in Hrun. destruct acc as [a|].
    + destruct (concat_axis1 [a; tdf']) as [d|]; [|discriminate Hrun].
      injection Hrun as <- _. eauto.
    + injection Hrun as <- _. reflexivity.
  - intros i acc acc' w0 w1 Hacc Hrun. eapply apply_unit_index; eauto.
  - intros v w' Hacc Hrun. rewrite apply_transformations_run, Hidx in Hrun. split.
    + eapply for_each_unit_index; [exact Hacc|exact Hrun|reflexivity].
    + destruct (for_each_unit_invariant _ _ _ _ _ _ _ _ (elem_of_seq_0 _) Hrun)
        as (_ & _ & Hok).
      destruct (Hok (Some v) eq_refl) as [_ Hstored]. symmetry. apply Hstored.
      reflexivity.
  - intros r w' Hacc Hrun. rewrite apply_transformations_run, Hidx in Hrun.
    eapply for_each_unit_stored_index; [exact Hacc|exact Hacc|exact Hrun].
Qed.

Lemma output_follows_call_labels_witness :
  index_of demo_features = [VStr "a"; VStr "b"]
  /\ transformed_df (engine demo_world_applied) = Some demo_features.
Proof.
  destruct (output_follows_call_labels demo_raw (Some ["ID"]) false demo_world
              (demo_working, [VStr "a"; VStr "b"]) eq_refl) as (_ & _ & _ & H & _).
  apply (H demo_features demo_world_applied); [|reflexivity].
  intros a Ha. discriminate Ha.
Defined.

(** * Further properties of the engine *)

(** ** Columns of the raw table (line 164) *)

Lemma Forall_select {A} (P : A -> Prop) (mask : list bool) (l : list A) :
  Forall P l -> Forall P (select mask l).
Proof.
  revert l. induction mask as [|b mask IH]; intros [|x l] Hl; simpl;
    try (constructor; fail).
  inversion Hl; subst. destruct b; [constructor|]; auto.
Qed.

Lemma drop_duplicate_columns_first (raw : DataFrame) :
  NoDup (columns (drop_duplicate_columns raw))
  /\ (forall c, c ∈ columns (drop_duplicate_columns raw) <-> c ∈ columns raw)
  /\ (forall c, c ∈ columns raw ->
        columns_named c (drop_duplicate_columns raw) = [(c, column_values raw c)])
  /\ d_index (drop_duplicate_columns raw) = d_index raw
  /\ (well_formed raw -> well_formed (drop_duplicate_columns raw)).
Proof.
  assert (Hcols : columns (drop_duplicate_columns raw)
                  = select (map negb (duplicated_from [] (columns raw))) (columns raw)).
  { unfold columns, drop_duplicate_columns, duplicated. simpl.
    rewrite <- select_map. reflexivity. }
  destruct (select_first_occurrences [] (columns raw)) as [Hnd Hin].
  repeat apply conj.
  - rewrite Hcols. exact Hnd.
  - intros c. rewrite Hcols. rewrite Hin. split; [intros [H _]; exact H|].
    intros H. split; [exact H|]. intros H'. inversion H'.
  - apply columns_named_drop_duplicate_columns.
  - reflexivity.
  - intros Hwf. unfold well_formed, drop_duplicate_columns. simpl.
    apply Forall_select. exact Hwf.
Qed.

(** X1.  Repeated column names are dropped: the names left are distinct, no name
    is lost, under every name stands the first column the raw table had under
    it, and the rows are untouched. *)
Theorem drop_duplicate_columns_keeps_first (raw : DataFrame) :
  NoDup (columns (drop_duplicate_columns raw))
  /\ (forall c, c ∈ columns (drop_duplicate_columns raw) <-> c ∈ columns raw)
  /\ (forall c, c ∈ columns raw ->
        columns_named c (drop_duplicate_columns raw) = [(c, column_values raw c)])
  /\ d_index (drop_duplicate_columns raw) = d_index raw
  /\ (well_formed raw -> well_formed (drop_duplicate_columns raw)).
Proof. exact (drop_duplicate_columns_first raw). Qed.

Lemma drop_duplicate_columns_keeps_first_witness :
  columns_named (VStr "ID") (drop_duplicate_columns dup_raw)
  = [(VStr "ID", [VStr "a"; VStr "b"])].
Proof.
  destruct (drop_duplicate_columns_keeps_first dup_raw) as (_ & _ & H & _).
  apply (H (VStr "ID")). left.
Defined.

(** ** Identity columns that cannot be used (line 168) *)

Lemma rmap_some_Raise {A B} (f : A -> result B) (l : list A) (e : exn) :
  (forall x, x ∈ l -> (exists b, f x = Ret b) \/ f x = Raise e) ->
  (exists x, x ∈ l /\ f x = Raise e) ->
  rmap f l = Raise e.
Proof.
  induction l as [|x l IH]; intros Hall (y & Hy & Hfy); [inversion Hy|]. simpl.
  destruct (Hall x) as [[b Hb] | Hx]; [left| |rewrite Hx; reflexivity].
  rewrite Hb. simpl. rewrite IH; [reflexivity| |].
  - intros z Hz. apply Hall. right. exact Hz.
  - apply elem_of_cons in Hy. destruct Hy as [-> | Hy]; [congruence|eauto].
Qed.

Lemma str_join_cases (vs : list scalar) :
  (exists s, str_join vs = Ret s) \/ str_join vs = Raise not_a_string.
Proof.
  induction vs as [|v vs IH]; simpl; [eauto|].
  destruct v; [|right; reflexivity..].
  destruct IH as [[t ->] | ->]; simpl; eauto.
Qed.

Lemma str_join_non_string (vs : list scalar) (v : scalar) :
  v ∈ vs -> non_string v -> str_join vs = Raise not_a_string.
Proof.
  intros Hin Hv. induction vs as [|x vs IH]; [inversion Hin|].
  apply elem_of_cons in Hin. simpl. destruct x as [s| | |]; try reflexivity.
  destruct Hin as [-> | Hin]; [exfalso; apply (Hv s); reflexivity|].
  rewrite (IH Hin). reflexivity.
Qed.

Lemma missing_columns_drop_duplicate_columns (raw : DataFrame) (cs : list string) :
  missing_columns (drop_duplicate_columns raw) cs = missing_columns raw cs.
Proof.
  destruct (drop_duplicate_columns_first raw) as (_ & Hcols & _).
  unfold missing_columns. f_equal. apply list_filter_iff.
  intros c. rewrite Hcols. reflexivity.
Qed.

(** X2.  An identity column that the raw table does not have makes the call
    raise a [KeyError] before any unit is looked at: the engine, the call log
    and the output are untouched.  The error names the identity columns that
    are missing, all of them and no other name. *)
Theorem missing_identity_column_raises (raw : DataFrame) (index_cols : list string)
    (c : string) (reapply_all : bool) (w : World) :
  c ∈ index_cols ->
  VStr c ∉ columns raw ->
  let names := missing_columns raw index_cols in
  apply_transformations raw (Some index_cols) reapply_all w = (Raise (KeyError names), w)
  /\ (forall x, x ∈ names <-> x ∈ index_cols /\ VStr x ∉ columns raw).
Proof.
  intros Hin Hc names. subst names.
  split; [|apply elem_of_missing_columns].
  rewrite apply_transformations_run. unfold create_index.
  destruct index_cols as [|c0 cs] eqn:Hsplit; [inversion Hin|].
  rewrite <- Hsplit in *. unfold frame_getitem_list.
  rewrite missing_columns_drop_duplicate_columns.
  destruct (missing_columns raw index_cols) as [|x l] eqn:Hm; [|reflexivity].
  assert (Hx : c ∈ missing_columns raw index_cols)
    by (apply elem_of_missing_columns; auto).
  rewrite Hm in Hx. inversion Hx.
Qed.

Lemma missing_identity_column_raises_witness :
  apply_transformations demo_raw (Some ["ID"; "Day"; "Amount"; "Hour"; "Day"]) false
    demo_world
  = (Raise (KeyError (missing_columns demo_raw ["ID"; "Day"; "Amount"; "Hour"; "Day"])),
     demo_world)
  /\ missing_columns demo_raw ["ID"; "Day"; "Amount"; "Hour"; "Day"] = ["Day"; "Hour"].
Proof.
  split; [|reflexivity].
  apply (missing_identity_column_raises demo_raw ["ID"; "Day"; "Amount"; "Hour"; "Day"]
           "Day").
  - right. left.
  - change (VStr "Day" ∉ [VStr "ID"; VStr "Amount"]). not_in_list.
Defined.

Lemma row_getitem_list_elem (x : list (label * scalar)) (cs : list string) (c : string)
    (v : scalar) :
  c ∈ cs -> (VStr c, v) ∈ x -> v ∈ row_getitem_list x cs.
Proof.
  intros Hc Hx. unfold row_getitem_list.
  induction cs as [|c' cs IH]; [inversion Hc|].
  cbn [flat_map]. apply elem_of_app. apply elem_of_cons in Hc.
  destruct Hc as [<- | Hc]; [left|right; apply IH, Hc].
  change v with (snd (VStr c, v)). apply list_elem_of_fmap_2.
  apply list_elem_of_filter. split; [reflexivity|exact Hx].
Qed.

(** X3.  An identity value that is not a string, in any row and any identity
    column, makes the call raise the [TypeError] of [str.join]: the values are
    never converted.  Nothing has run by then. *)
Theorem non_string_identity_raises (raw : DataFrame) (index_cols : list string)
    (c : string) (i : nat) (reapply_all : bool) (w : World) :
  (forall c', c' ∈ index_cols -> VStr c' ∈ columns raw) ->
  c ∈ index_cols ->
  i < length (d_index raw) ->
  non_string (nth i (column_values raw (VStr c)) VNaN) ->
  apply_transformations raw (Some index_cols) reapply_all w = (Raise not_a_string, w).
Proof.
  intros Hcols Hc Hi Hv. rewrite apply_transformations_run.
  assert (Hcreate : create_index (drop_duplicate_columns raw) (Some index_cols)
                    = Raise not_a_string); [|rewrite Hcreate; reflexivity].
  unfold create_index. destruct index_cols as [|c0 cs] eqn:Hsplit; [inversion Hc|].
  rewrite <- Hsplit in *. clear Hsplit.
  rewrite (frame_getitem_list_cols _ index_cols (fun c' => column_values raw (VStr c'))).
  2:{ intros c' Hc'. apply columns_named_drop_duplicate_columns, Hcols, Hc'. }
  cbn [rbind].
  rewrite apply_row_key_rows by (left; cbn [d_index drop_duplicate_columns]; lia).
  rewrite (rmap_some_Raise _ _ not_a_string); [reflexivity| |].
  - intros j _. apply str_join_cases.
  - exists i. split; [apply elem_of_seq; simpl; lia|].
    unfold row_key.
    apply (str_join_non_string _ (nth i (column_values raw (VStr c)) VNaN)); [|exact Hv].
    apply (row_getitem_list_elem _ _ c); [exact Hc|].
    unfold frame_row. cbn [d_columns]. rewrite map_map. cbn [fst snd].
    change (VStr c, nth i (column_values raw (VStr c)) VNaN)
      with ((fun c' => (VStr c', nth i (column_values raw (VStr c')) VNaN)) c).
    apply list_elem_of_fmap_2. exact Hc.
Qed.

Lemma non_string_identity_raises_witness :
  apply_transformations spec_raw (Some ["ID"]) true demo_world
  = (Raise not_a_string, demo_world).
Proof.
  apply (non_string_identity_raises spec_raw ["ID"] "ID" 1).
  - intros c' Hc'. apply list_elem_of_singleton in Hc'. subst c'. left.
  - left.
  - simpl. lia.
  - intros s Hs. discriminate Hs.
Defined.

(** ** The working table (lines 166-178) *)

(** Whenever the row identity can be built, it is built from one key per
    row of the table. *)
Lemma create_index_shape (d d' : DataFrame) (index_cols : list string) (idx : list label) :
  index_cols <> [] ->
  create_index d (Some index_cols) = Ret (d', idx) ->
  exists keys,
    length keys = length (d_index d)
    /\ idx = map VStr (select (first_rows keys) keys)
    /\ d' = mkFrame idx
              (map (fun col => (fst col, select (first_rows keys) (snd col)))
                 (filter (fun col => fst col <> VStr "INDEX") (d_columns d))).
Proof.
  intros Hne. unfold create_index. destruct index_cols as [|c0 cs]; [contradiction|].
  destruct (frame_getitem_list d (c0 :: cs)) as [sub|]; [|discriminate].
  cbn [rbind].
  destruct (apply_row_key sub (c0 :: cs) (length (d_index d))) as [keys|] eqn:Hkeys;
    [|discriminate].
  apply apply_row_key_length in Hkeys.
  cbn [rbind]. unfold drop_duplicates. rewrite column_values_frame_setitem.
  unfold duplicated. rewrite (duplicated_from_map VStr [] keys) by congruence.
  fold (duplicated keys). fold (first_rows keys).
  rewrite column_values_select_rows, column_values_frame_setitem, select_map.
  unfold set_index. cbn [d_index frame_select_rows].
  rewrite d_index_frame_setitem.
  rewrite decide_True.
  2:{ rewrite length_map. apply length_select_same. exact Hkeys. }
  cbn [rbind]. unfold frame_delitem, frame_select_rows. cbn [d_index d_columns].
  rewrite filter_map_columns by reflexivity.
  rewrite other_columns_frame_setitem.
  intros [= <- <-]. exists keys. auto.
Qed.

Lemma length_select_le {A} (mask : list bool) (l : list A) :
  length (select mask l) <= length l.
Proof.
  revert l. induction mask as [|b mask IH]; intros [|x l]; simpl; try lia.
  specialize (IH l). destruct b; simpl; lia.
Qed.

Lemma names_of_other_columns (c : label) (cols : list (label * list scalar)) :
  map fst (filter (fun col => fst col <> c) cols) = filter (fun n => n <> c) (map fst cols).
Proof.
  induction cols as [|col cols IH]; [reflexivity|]. simpl.
  destruct (decide (fst col <> c)) as [Hc|Hc].
  - rewrite !filter_cons_True by exact Hc. simpl. rewrite IH. reflexivity.
  - rewrite !filter_cons_False by exact Hc. exact IH.
Qed.

(** X4.  With identity columns, the working table has no column called [INDEX]:
    a column of that name in the raw table is overwritten by the keys and
    deleted with them.  Every other column is kept, in its place. *)
Theorem working_table_drops_INDEX_column (raw : DataFrame) (index_cols : list string)
    (working : DataFrame * list label) :
  index_cols <> [] ->
  create_index (drop_duplicate_columns raw) (Some index_cols) = Ret working ->
  (VStr "INDEX" ∉ columns (fst working))
  /\ columns (fst working)
     = filter (fun c => c <> VStr "INDEX") (columns (drop_duplicate_columns raw))
  /\ (forall c, c <> VStr "INDEX" -> (c ∈ columns (fst working) <-> c ∈ columns raw)).
Proof.
  intros Hne Hcreate. destruct working as [d' idx].
  destruct (create_index_shape _ _ _ _ Hne Hcreate) as (keys & _ & _ & ->).
  assert (Hcols : columns (mkFrame idx
                    (map (fun col : label * list scalar =>
                            (fst col, select (first_rows keys) (snd col)))
                       (filter (fun col => fst col <> VStr "INDEX")
                          (d_columns (drop_duplicate_columns raw)))))
                  = filter (fun c => c <> VStr "INDEX")
                      (columns (drop_duplicate_columns raw))).
  { unfold columns. cbn [d_columns]. rewrite map_map. cbn [fst].
    apply names_of_other_columns. }
  cbn [fst]. rewrite Hcols.
  destruct (drop_duplicate_columns_first raw) as (_ & Hin & _).
  repeat apply conj.
  - intros H. apply list_elem_of_filter in H. destruct H as [H _]. apply H. reflexivity.
  - reflexivity.
  - intros c Hc. rewrite list_elem_of_filter, Hin. tauto.
Qed.

Lemma working_table_drops_INDEX_column_witness :
  columns dup_raw = [VStr "ID"; VStr "INDEX"; VStr "ID"; VStr "Amount"]
  /\ columns demo_working = [VStr "ID"; VStr "Amount"].
Proof.
  split; [reflexivity|].
  destruct (working_table_drops_INDEX_column dup_raw ["ID"]
              (demo_working, [VStr "a"; VStr "b"]) ltac:(discriminate) eq_refl)
    as (_ & H & _).
  exact H.
Defined.

(** X5.  The row identity is sound for every table it is built for: the working
    table is labelled by exactly the returned labels, it has at most as many
    rows as the raw table, it is well formed if the raw table is, and with
    identity columns its labels are pairwise distinct. *)
Theorem row_identity_is_sound (raw : DataFrame) (index_cols : option (list string))
    (working : DataFrame * list label) :
  create_index (drop_duplicate_columns raw) index_cols = Ret working ->
  d_index (fst working) = snd working
  /\ length (snd working) <= length (d_index raw)
  /\ (well_formed raw -> well_formed (fst working))
  /\ (forall cs, index_cols = Some cs -> cs <> [] -> NoDup (snd working)).
Proof.
  intros Hcreate. destruct working as [d' idx]. cbn [fst snd].
  destruct (drop_duplicate_columns_first raw) as (_ & _ & _ & Hidx & Hwf).
  assert (Hnone : create_index (drop_duplicate_columns raw) index_cols
                  = Ret (drop_duplicate_columns raw, d_index raw) ->
                  d_index d' = idx /\ length idx <= length (d_index raw)
                  /\ (well_formed raw -> well_formed d')).
  { rewrite Hcreate. intros [= -> ->]. auto. }
  destruct index_cols as [[|c0 cs]|]; try (destruct (Hnone eq_refl) as (? & ? & ?);
    repeat apply conj; auto; intros cs' [= <-]; congruence).
  clear Hnone.
  assert (Hne : c0 :: cs <> []) by discriminate.
  destruct (create_index_shape _ _ _ _ Hne Hcreate) as (keys & Hlen & -> & ->).
  rewrite Hidx in Hlen. repeat apply conj.
  - reflexivity.
  - rewrite length_map. etransitivity; [apply length_select_le|]. lia.
  - intros Hraw. specialize (Hwf Hraw). unfold well_formed in *. cbn [d_index d_columns].
    apply Forall_forall. intros col Hcol.
    change (map ?f ?l) with (f <$> l) in Hcol.
    apply list_elem_of_fmap in Hcol. destruct Hcol as (col0 & -> & Hcol0).
    apply list_elem_of_filter in Hcol0. destruct Hcol0 as [_ Hcol0].
    rewrite Forall_forall in Hwf. cbn [snd]. rewrite length_map.
    apply length_select_same.
    rewrite (Hwf col0) by exact Hcol0.
    rewrite Hidx. symmetry. exact Hlen.
  - intros _ _ _. destruct (select_first_occurrences [] keys) as [Hnd _].
    assert (Inj (=) (=) VStr) by (intros x y [= ->]; reflexivity).
    apply (NoDup_fmap_2 VStr). exact Hnd.
Qed.

Lemma row_identity_is_sound_witness :
  well_formed demo_working /\ NoDup [VStr "a"; VStr "b"].
Proof.
  destruct (row_identity_is_sound demo_raw (Some ["ID"])
              (demo_working, [VStr "a"; VStr "b"]) eq_refl) as (_ & _ & Hwf & Hnd).
  split.
  - apply Hwf. repeat constructor.
  - apply (Hnd ["ID"] eq_refl). discriminate.
Defined.

(** ** Fixed parameters and calling conventions (lines 138-151) *)

Lemma dict_get_set_eq (k : string) (v : pyval) (d : dict) :
  dict_get k (dict_set k v d) = Some v.
Proof.
  induction d as [|[k' v'] d IH]; simpl.
  - rewrite decide_True by reflexivity. reflexivity.
  - destruct (decide (k' = k)) as [->|Hne]; simpl.
    + rewrite decide_True by reflexivity. reflexivity.
    + rewrite decide_False by exact Hne. exact IH.
Qed.

Lemma dict_get_set_ne (k k' : string) (v : pyval) (d : dict) :
  k' <> k -> dict_get k (dict_set k' v d) = dict_get k d.
Proof.
  intros Hne. induction d as [|[k'' v''] d IH]; simpl.
  - rewrite decide_False by exact Hne. reflexivity.
  - destruct (decide (k'' = k')) as [->|Hne']; simpl.
    + rewrite !decide_False by exact Hne. reflexivity.
    + destruct (decide (k'' = k)); [reflexivity|exact IH].
Qed.

Lemma dict_get_update_notin (k : string) (d e : dict) :
  k ∉ map fst e -> dict_get k (dict_update d e) = dict_get k d.
Proof.
  revert d. unfold dict_update. induction e as [|[k' v'] e IH]; intros d Hk; simpl;
    [reflexivity|].
  simpl in Hk. apply not_elem_of_cons in Hk. destruct Hk as [Hne Hk].
  rewrite IH by exact Hk. apply dict_get_set_ne. congruence.
Qed.

Lemma keys_dict_set (k : string) (v : pyval) (d : dict) :
  map fst d `prefix_of` map fst (dict_set k v d).
Proof.
  induction d as [|[k' v'] d IH]; simpl; [apply prefix_nil|].
  destruct (decide (k' = k)) as [->|Hne]; simpl; [reflexivity|].
  apply prefix_cons, IH.
Qed.

Lemma keys_dict_update (d e : dict) :
  map fst d `prefix_of` map fst (dict_update d e).
Proof.
  revert d. unfold dict_update. induction e as [|[k v] e IH]; intros d; simpl;
    [reflexivity|].
  etransitivity; [apply (keys_dict_set k v)|apply IH].
Qed.

(** X6.  For the per-series convention, a fixed parameter wins over a resolved
    column of the same keyword (its last binding counts), every other keyword
    keeps its resolved column, and the keywords [ser1], [ser2], ... keep
    their places at the front of the mapping, which is the order of the
    positional call. *)
Theorem fixed_parameters_take_precedence (t : Transformation) (df : DataFrame)
    (acc : option pyval) (vs : list pyval) :
  rmap (resolve_column df acc) (on_col_list t) = Ret vs ->
  transform_type t = "series" ->
  exists args,
    get_args t df acc = Ret args
    /\ (forall e1 k v e2, fixed_args t = e1 ++ (k, v) :: e2 -> k ∉ map fst e2 ->
          dict_get k args = Some v)
    /\ (forall k, k ∉ map fst (fixed_args t) ->
          dict_get k args = dict_get k (series_args vs))
    /\ map fst (series_args vs) `prefix_of` map fst args.
Proof.
  intros Hvs Hty. eexists. split; [apply get_args_series; eassumption|].
  repeat apply conj.
  - intros e1 k v e2 Hsplit Hk. rewrite Hsplit. unfold dict_update.
    rewrite fold_left_app. simpl.
    change (fold_left ?f e2 ?d) with (dict_update d e2).
    rewrite dict_get_update_notin by exact Hk. apply dict_get_set_eq.
  - intros k Hk. apply dict_get_update_notin, Hk.
  - apply keys_dict_update.
Qed.

Lemma fixed_parameters_take_precedence_witness :
  exists args,
    get_args (Transformation_init (Cols ["Amount"]) transforms_above_threshold
                (NameStr "High")
                (Some [("threshold", PScalar (VInt 500)); ("ser1", PScalar (VInt 7))])
                "series") demo_working None = Ret args
    /\ dict_get "ser1" args = Some (PScalar (VInt 7))
    /\ map fst args = ["ser1"; "threshold"].
Proof.
  destruct (fixed_parameters_take_precedence
              (Transformation_init (Cols ["Amount"]) transforms_above_threshold
                 (NameStr "High")
                 (Some [("threshold", PScalar (VInt 500)); ("ser1", PScalar (VInt 7))])
                 "series") demo_working None _ eq_refl eq_refl)
    as (args & Hargs & Hfixed & _ & _).
  exists args. split; [exact Hargs|]. split.
  - apply (Hfixed [("threshold", PScalar (VInt 500))] "ser1" (PScalar (VInt 7)) []
             eq_refl).
    intros H. inversion H.
  - vm_compute in Hargs. injection Hargs as <-. reflexivity.
Defined.

(** X7.  A calling convention other than the two the engine knows is reported only
    after every declared name has been resolved, and before the function is
    called: the unit is not invoked and keeps its flag. *)
Theorem unknown_transform_type_raises (t : Transformation) (df : DataFrame)
    (acc : option DataFrame) :
  (forall c, c ∈ on_col_list t -> resolvable df acc c) ->
  transform_type t <> "series" ->
  transform_type t <> "dataframe" ->
  get_args t df (PFrame <$> acc) = Raise (Exception "Unknwon transform type")
  /\ (forall index_list reapply_all i w,
        units w !! i = Some t -> executed t reapply_all ->
        apply_unit df index_list reapply_all (PFrame <$> acc) i w
        = (Raise (Exception "Unknwon transform type"), w)).
Proof.
  intros Hall Hs Hd.
  assert (Hget : get_args t df (PFrame <$> acc)
                 = Raise (Exception "Unknwon transform type")).
  { destruct (rmap_all_Ret (resolve_column df (PFrame <$> acc)) (on_col_list t))
      as (vs & Hvs & _).
    { intros c Hc. apply resolve_column_resolvable, Hall, Hc. }
    unfold get_args. rewrite Hvs. cbn [rbind].
    rewrite !decide_False by assumption. reflexivity. }
  split; [exact Hget|].
  intros index_list reapply_all i w Hi Hex.
  rewrite (apply_unit_run _ _ _ _ _ _ _ Hi). unfold executed in Hex.
  rewrite Hex, Hget. reflexivity.
Qed.

Lemma unknown_transform_type_raises_witness :
  get_args (Transformation_init (Cols ["Amount"]) (transforms_pair 2) NameNone None "frame")
    demo_working (PFrame <$> None)
  = Raise (Exception "Unknwon transform type").
Proof.
  destruct (unknown_transform_type_raises
              (Transformation_init (Cols ["Amount"]) (transforms_pair 2) NameNone None
                 "frame") demo_working None) as [H _];
    [|discriminate|discriminate|exact H].
  intros c Hc. apply list_elem_of_singleton in Hc. subst c. left. right. left.
Defined.

Lemma as_frames_named (k : Z) (idx : list label) (v : string -> list scalar)
    (cs : list string) :
  as_frames k (map (fun c => PSeries (mkSeries (Some (VStr c)) idx (v c))) cs)
  = Ret (map (fun c => mkFrame idx [(VStr c, v c)]) cs).
Proof. induction cs as [|c cs IH]; simpl; [|rewrite IH]; reflexivity. Qed.

Lemma concat_axis1_named (idx : list label) (v : string -> list scalar)
    (cs : list string) :
  cs <> [] ->
  concat_axis1 (map (fun c => PSeries (mkSeries (Some (VStr c)) idx (v c))) cs)
  = Ret (mkFrame idx (map (fun c => (VStr c, v c)) cs)).
Proof.
  intros Hne. unfold concat_axis1. rewrite as_frames_named.
  destruct cs as [|c0 cs]; [contradiction|]. clear Hne. cbn [map rbind d_index].
  replace (forallb (fun i => bool_decide (i = idx))
             (map d_index (map (fun c => mkFrame idx [(VStr c, v c)]) cs))) with true.
  - f_equal. f_equal. simpl. f_equal.
    induction cs as [|c cs IH]; simpl; [|rewrite IH]; reflexivity.
  - symmetry. induction cs as [|c cs IH]; simpl; [reflexivity|].
    rewrite bool_decide_eq_true_2 by reflexivity. exact IH.
Qed.

Lemma resolve_column_unique (df : DataFrame) (acc : option pyval) (c : string)
    (vals : list scalar) :
  columns_named (VStr c) df = [(VStr c, vals)] ->
  resolve_column df acc c = Ret (PSeries (mkSeries (Some (VStr c)) (d_index df) vals)).
Proof.
  intros Hc. unfold resolve_column.
  destruct (decide (VStr c ∈ columns df)) as [Hin|Hnin].
  - rewrite bool_decide_eq_true_2 by exact Hin. unfold frame_getitem. rewrite Hc.
    reflexivity.
  - rewrite (columns_named_nil _ _ Hnin) in Hc. discriminate Hc.
Qed.

(** X8.  For the whole-table convention with every declared name the name of
    exactly one column of the raw table, the function receives under the
    keyword [df] the table of those columns, in the declared order and under
    the row labels of the raw table, together with the fixed parameters.  A
    unit of that convention that declares no name at all raises the
    [ValueError] of a concatenation of nothing. *)
Theorem dataframe_convention (t : Transformation) (df : DataFrame) (acc : option pyval)
    (v : string -> list scalar) :
  transform_type t = "dataframe" ->
  (forall c, c ∈ on_col_list t -> columns_named (VStr c) df = [(VStr c, v c)]) ->
  (on_col_list t <> [] ->
   get_args t df acc
   = Ret (dict_update
            [("df", PFrame (mkFrame (d_index df)
                              (map (fun c => (VStr c, v c)) (on_col_list t))))]
            (fixed_args t)))
  /\ (on_col_list t = [] ->
      get_args t df acc = Raise (ValueError "No objects to concatenate")).
Proof.
  intros Hty Hcols. unfold get_args.
  rewrite (rmap_Ret_map _
             (fun c => PSeries (mkSeries (Some (VStr c)) (d_index df) (v c)))).
  2:{ intros c Hc. apply resolve_column_unique, Hcols, Hc. }
  cbn [rbind]. rewrite Hty.
  rewrite decide_False by discriminate. rewrite decide_True by reflexivity.
  split.
  - intros Hne. rewrite concat_axis1_named by exact Hne. cbn [rbind].
    destruct (on_col_list t) as [|c0 cs]; [contradiction|]. cbn [map nrows rbind s_index d_index].
    rewrite decide_True by reflexivity. reflexivity.
  - intros ->. reflexivity.
Qed.

Lemma dataframe_convention_witness :
  get_args (Transformation_init (Cols ["Amount"; "ID"]) (transforms_pair 2) NameNone None
              "dataframe") demo_working None
  = Ret [("df", PFrame (mkFrame [VStr "a"; VStr "b"]
                          [(VStr "Amount", [VInt 100; VInt 600]);
                           (VStr "ID", [VStr "a"; VStr "b"])]))].
Proof.
  destruct (dataframe_convention
              (Transformation_init (Cols ["Amount"; "ID"]) (transforms_pair 2) NameNone
                 None "dataframe") demo_working None
              (fun c => column_values demo_working (VStr c)) eq_refl) as [H _].
  - intros c Hc. apply elem_of_cons in Hc. destruct Hc as [-> | Hc]; [reflexivity|].
    apply list_elem_of_singleton in Hc. subst c. reflexivity.
  - apply H. discriminate.
Defined.

(** ** What an invocation leaves behind (lines 45-65) *)

Lemma Transformation_apply_Ret (i : nat) (t : Transformation) (args : dict)
    (w w1 : World) (tdf : pyval) :
  units w !! i = Some t ->
  Transformation_apply i args w = (Ret tdf, w1) ->
  exists v w0 evs,
    call_transformation_f (transformation_f t) args w = (Ret v, w0)
    /\ w0 = logged evs w
    /\ output_fragment (name t) v = Ret tdf
    /\ w1 = mark_applied i w0.
Proof.
  intros Hi Hrun. rewrite (Transformation_apply_run i t args w Hi) in Hrun.
  destruct (call_transformation_f (transformation_f t) args w) as [[v|e] w0] eqn:Hcall;
    [|discriminate Hrun].
  pose proof (call_transformation_f_world _ _ _ _ _ Hcall) as Hw0.
  fold (output_fragment (name t) v) in Hrun.
  destruct (output_fragment (name t) v) as [tdf'|] eqn:Hfrag; [|discriminate Hrun].
  injection Hrun as <- <-. destruct Hw0 as [-> | ->]; eauto 10.
Qed.

Lemma output_fragment_pandas (n : out_name) (v tdf : pyval) :
  output_fragment n v = Ret tdf ->
  (exists s, tdf = PSeries s) \/ (exists d, tdf = PFrame d).
Proof.
  unfold output_fragment. destruct (rename_output n v) as [v'|]; [|discriminate].
  cbn [rbind]. unfold reset_index. destruct v'; intros [= <-]; eauto.
Qed.

(** X9.  An invocation never touches the accumulated table, the printed notices
    or the function objects.  When it raises, the registry is exactly as it
    was, so the unit is not flagged.  When it returns, its unit is flagged,
    no other unit is changed, and the fragment is a Series or a table under
    the positions 0, 1, ... *)
Theorem invocation_flags_on_success_only (i : nat) (t : Transformation) (args : dict)
    (w w' : World) (r : result pyval) :
  units w !! i = Some t ->
  Transformation_apply i args w = (r, w') ->
  transformed_df (engine w') = transformed_df (engine w)
  /\ stdout w' = stdout w
  /\ fn_logger w' = fn_logger w
  /\ (forall e, r = Raise e -> units w' = units w)
  /\ (forall tdf, r = Ret tdf ->
        applied w' i
        /\ (forall j, j <> i -> units w' !! j = units w !! j)
        /\ ((exists s, tdf = PSeries s) \/ (exists d, tdf = PFrame d))
        /\ index_of tdf = default_index (length (index_of tdf))).
Proof.
  intros Hi Hrun. destruct r as [tdf|e].
  - destruct (Transformation_apply_Ret _ _ _ _ _ _ Hi Hrun)
      as (v & w0 & evs & _ & -> & Hfrag & ->).
    repeat apply conj; try reflexivity; try (intros e [=]; fail).
    intros tdf' [= <-]. repeat apply conj.
    + apply (applied_mark_applied_eq i (logged evs w)).
      eapply lookup_lt_Some. exact Hi.
    + intros j Hj. unfold mark_applied, units. simpl.
      apply list_lookup_alter_ne. congruence.
    + eapply output_fragment_pandas, Hfrag.
    + rewrite (output_fragment_index _ _ _ Hfrag), length_default_index. reflexivity.
  - destruct (Transformation_apply_Raise _ _ _ _ _ _ Hi Hrun) as [-> | ->];
      repeat apply conj;
      first [reflexivity | intros ? ?; reflexivity | intros ? [=]].
Qed.

Lemma invocation_flags_on_success_only_witness :
  units (snd (Transformation_apply 0 demo_args_str demo_world)) = units demo_world
  /\ applied (snd (Transformation_apply 0 demo_args demo_world)) 0.
Proof.
  split.
  - destruct (invocation_flags_on_success_only 0 _ demo_args_str demo_world _ _
                eq_refl eq_refl) as (_ & _ & _ & H & _).
    apply (H _ eq_refl).
  - destruct (invocation_flags_on_success_only 0 _ demo_args demo_world _ _
                eq_refl eq_refl) as (_ & _ & _ & _ & H).
    apply (H _ eq_refl).
Defined.

(** X10.  A function result that is neither a Series nor a table (a scalar, a plain
    sequence) makes the invocation raise an [AttributeError], whatever the
    output name; a table under a list of names of another length makes it
    raise a [ValueError].  In both cases the unit is left unflagged. *)
Theorem invocation_rejects_unusable_results (i : nat) (t : Transformation) (args : dict)
    (w w1 : World) (v : pyval) :
  units w !! i = Some t ->
  call_transformation_f (transformation_f t) args w = (Ret v, w1) ->
  units w1 = units w
  /\ ((forall s, v <> PSeries s) -> (forall d, v <> PFrame d) ->
      Transformation_apply i args w = (Raise (AttributeError "reset_index"), w1))
  /\ (forall l d, name t = NameList l -> v = PFrame d ->
      length l <> length (columns d) ->
      Transformation_apply i args w = (Raise (ValueError "Length mismatch"), w1)).
Proof.
  intros Hi Hcall. rewrite (Transformation_apply_run i t args w Hi), Hcall.
  repeat apply conj.
  - destruct (call_transformation_f_world _ _ _ _ _ Hcall) as [-> | ->]; reflexivity.
  - intros Hs Hd. unfold rename_output, reset_index.
    destruct v as [s|d|x|l]; [destruct (Hs s eq_refl)|destruct (Hd d eq_refl)| |];
      destruct (name t); reflexivity.
  - intros l d Hname -> Hlen. rewrite Hname. unfold rename_output, columns in *.
    rewrite length_map in Hlen. rewrite decide_False by exact Hlen. reflexivity.
Qed.

Lemma invocation_rejects_unusable_results_witness :
  Transformation_apply 0 naming_args
    (snd (add_transformation (OneCol "Amount") (transforms_pair 2) None
            (NameList ["only"]) "series" (mkWorld (FeaturePipeline_init None) ∅ [] [])))
  = (Raise (ValueError "Length mismatch"),
     logged [CallKw 2 naming_args]
       (snd (add_transformation (OneCol "Amount") (transforms_pair 2) None
               (NameList ["only"]) "series"
               (mkWorld (FeaturePipeline_init None) ∅ [] [])))).
Proof.
  destruct (invocation_rejects_unusable_results 0 _ naming_args
              (snd (add_transformation (OneCol "Amount") (transforms_pair 2) None
                      (NameList ["only"]) "series"
                      (mkWorld (FeaturePipeline_init None) ∅ [] [])))
              _ _ eq_refl eq_refl) as (_ & _ & H).
  apply (H ["only"] _ eq_refl eq_refl). simpl. lia.
Defined.

(** ** A fragment of the wrong length (lines 188-192) *)

(** X11.  When the fragment of a unit does not have one row per label of the call,
    the relabelling raises a [ValueError].  By then the unit is flagged as
    applied, but its fragment has not been stored: the accumulated table is
    as before, and a later call without forced re-application skips the
    unit, so that its features are never added. *)
Theorem wrong_length_fragment_is_lost (df : DataFrame) (index_list : list label)
    (reapply_all : bool) (acc : option pyval) (i : nat) (t : Transformation)
    (args : dict) (w w1 : World) (tdf : pyval) :
  units w !! i = Some t ->
  executed t reapply_all ->
  get_args t df acc = Ret args ->
  Transformation_apply i args w = (Ret tdf, w1) ->
  length index_list <> length (index_of tdf) ->
  apply_unit df index_list reapply_all acc i w = (Raise (ValueError "Length mismatch"), w1)
  /\ applied w1 i
  /\ transformed_df (engine w1) = transformed_df (engine w)
  /\ (forall df' index_list' acc',
        apply_unit df' index_list' false acc' i w1
        = (Ret acc', printed [AlreadyApplied i] w1)).
Proof.
  intros Hi Hex Hargs Happly Hlen.
  assert (Htable : transformed_df (engine w1) = transformed_df (engine w)
                   /\ applied w1 i
                   /\ ((exists s, tdf = PSeries s) \/ (exists d, tdf = PFrame d))).
  { destruct (Transformation_apply_Ret _ _ _ _ _ _ Hi Happly)
      as (v & w0 & evs & _ & -> & Hfrag & ->).
    split; [reflexivity|]. split; [|eapply output_fragment_pandas, Hfrag].
    apply (applied_mark_applied_eq i (logged evs w)). eapply lookup_lt_Some. exact Hi. }
  destruct Htable as (Htable & Happlied & Hkind).
  repeat apply conj.
  - rewrite (apply_unit_run _ _ _ _ _ _ _ Hi). unfold executed in Hex.
    rewrite Hex, Hargs, Happly. unfold merge_fragment, set_index.
    destruct Hkind as [[s ->] | [d ->]]; simpl in Hlen;
      rewrite decide_False by exact Hlen; reflexivity.
  - exact Happlied.
  - exact Htable.
  - intros df' index_list' acc'. destruct Happlied as (t1 & Ht1 & Hflag).
    rewrite (apply_unit_run _ _ _ _ _ _ _ Ht1), Hflag. reflexivity.
Qed.

Lemma wrong_length_fragment_is_lost_witness :
  apply_unit demo_working [VStr "a"] false None 0 demo_world
  = (Raise (ValueError "Length mismatch"),
     mark_applied 0 (logged [CallKw 1 demo_working_args] demo_world))
  /\ transformed_df
       (engine (mark_applied 0 (logged [CallKw 1 demo_working_args] demo_world))) = None.
Proof.
  destruct (wrong_length_fragment_is_lost demo_working [VStr "a"] false None 0 _
              demo_working_args demo_world _ _ eq_refl eq_refl eq_refl eq_refl)
    as (H & _ & Htable & _).
  - simpl. lia.
  - split; [exact H|exact Htable].
Defined.

(** ** What a pass over the registry leaves behind (lines 180-196) *)

Lemma same_unit_refl (t : Transformation) : same_unit t t.
Proof. unfold same_unit. auto 10. Qed.

Lemma same_unit_trans (t1 t2 t3 : Transformation) :
  same_unit t1 t2 -> same_unit t2 t3 -> same_unit t1 t3.
Proof.
  unfold same_unit. intros (?&?&?&?&?&?) (?&?&?&?&?&?).
  repeat split; try congruence. auto.
Qed.

Lemma registry_kept_refl (w : World) : registry_kept w w.
Proof.
  unfold registry_kept. repeat split.
  apply Forall_Forall2_diag, Forall_forall. intros t _. apply same_unit_refl.
Qed.

Lemma registry_kept_trans (w1 w2 w3 : World) :
  registry_kept w1 w2 -> registry_kept w2 w3 -> registry_kept w1 w3.
Proof.
  unfold registry_kept. intros (H1 & H2 & H3) (H4 & H5 & H6).
  repeat split; try congruence.
  eapply Forall2_trans; [|exact H3|exact H6]. apply same_unit_trans.
Qed.

Lemma registry_kept_mark_applied (i : nat) (w : World) :
  registry_kept w (mark_applied i w).
Proof.
  unfold registry_kept, mark_applied, units. simpl. repeat split.
  apply Forall2_alter_r.
  - apply Forall_Forall2_diag, Forall_forall. intros t _. apply same_unit_refl.
  - intros x y _ _ Hxy. unfold same_unit in *. simpl. tauto.
Qed.

Lemma call_transformation_f_events (f : callable) (args : dict) (w w0 : World)
    (r : result pyval) :
  call_transformation_f f args w = (r, w0) ->
  exists evs,
    w0 = logged evs w
    /\ Forall (fun ev => event_fn ev = fn_id f) evs
    /\ 1 <= length evs <= 2.
Proof.
  intros Hcall. destruct (call_transformation_f_world _ _ _ _ _ Hcall) as [-> | ->];
    eexists; (split; [reflexivity|]); (split; [repeat constructor|simpl; lia]).
Qed.

(** The worlds a unit can leave differ from the world it found by the logged
    calls and, at most, the flag of that unit and the stored table. *)
Lemma effect_of_unit_worlds (i : nat) (evs : list call_event) (w w' : World) :
  w' = logged evs w \/ w' = mark_applied i (logged evs w)
  \/ (exists new, w' = stored new (mark_applied i (logged evs w))) ->
  registry_kept w w'
  /\ (forall j, j <> i -> units w' !! j = units w !! j)
  /\ call_log w' = call_log w ++ evs
  /\ stdout w' = stdout w.
Proof.
  assert (Hother : forall j, j <> i ->
            units (mark_applied i (logged evs w)) !! j = units w !! j).
  { intros j Hj. unfold mark_applied, units. simpl.
    apply list_lookup_alter_ne. congruence. }
  intros [-> | [-> | [new ->]]].
  - split; [exact (registry_kept_refl w)|]. auto.
  - split; [exact (registry_kept_mark_applied i (logged evs w))|]. auto.
  - split; [exact (registry_kept_mark_applied i (logged evs w))|]. auto.
Qed.

Section Effects.

Variables (df : DataFrame) (index_list : list label) (reapply_all : bool).

(** The effect of one unit of the loop on the call log, the notices and the
    registry. *)
Lemma apply_unit_effect (acc : option pyval) (i : nat) (t : Transformation)
    (w w' : World) (r : result (option pyval)) :
  units w !! i = Some t ->
  apply_unit df index_list reapply_all acc i w = (r, w') ->
  registry_kept w w'
  /\ (forall j, j <> i -> units w' !! j = units w !! j)
  /\ exists evs,
       call_log w' = call_log w ++ evs
       /\ Forall (fun ev => event_fn ev = fn_id (transformation_f t)) evs
       /\ length evs <= 2
       /\ (transformation_applied t && negb reapply_all = true ->
             evs = [] /\ stdout w' = stdout w ++ [AlreadyApplied i])
       /\ (executed t reapply_all ->
             stdout w' = stdout w /\ (forall a, r = Ret a -> 1 <= length evs)).
Proof.
  intros Hi Hrun. rewrite (apply_unit_run _ _ _ _ _ _ _ Hi) in Hrun.
  unfold executed.
  destruct (transformation_applied t && negb reapply_all) eqn:Hskip.
  { injection Hrun as <- <-. split; [exact (registry_kept_refl w)|].
    split; [reflexivity|]. exists []. simpl. rewrite app_nil_r.
    repeat split; auto; try discriminate; try (simpl; lia). }
  destruct (get_args t df acc) as [args|e].
  { rewrite (Transformation_apply_run i t args w Hi) in Hrun.
    destruct (call_transformation_f (transformation_f t) args w) as [[v|e] w0] eqn:Hcall;
      apply call_transformation_f_events in Hcall;
      destruct Hcall as (evs & -> & Hfn & Hlen).
    - assert (Hw' : w' = logged evs w \/ w' = mark_applied i (logged evs w)
                    \/ exists new, w' = stored new (mark_applied i (logged evs w))).
      { destruct (rbind (rename_output (name t) v) reset_index) as [tdf|];
          [|injection Hrun as _ <-; auto].
        destruct (merge_fragment index_list acc tdf) as [new|];
          injection Hrun as _ <-; eauto. }
      destruct (effect_of_unit_worlds i evs w w' Hw') as (Hk & Hother & Hlog & Hout).
      split; [exact Hk|]. split; [exact Hother|]. exists evs.
      repeat split; auto; try discriminate; lia.
    - injection Hrun as _ <-.
      destruct (effect_of_unit_worlds i evs w (logged evs w) (or_introl eq_refl))
        as (Hk & Hother & Hlog & Hout).
      split; [exact Hk|]. split; [exact Hother|]. exists evs.
      repeat split; auto; try discriminate; lia. }
  injection Hrun as <- <-. split; [exact (registry_kept_refl w)|].
  split; [reflexivity|]. exists []. rewrite app_nil_r. simpl.
  repeat split; auto; try discriminate; try lia.
Qed.

End Effects.

Lemma Forall2_impl_elem {A B} (P Q : A -> B -> Prop) (l : list A) (k : list B) :
  Forall2 P l k -> (forall x y, x ∈ l -> P x y -> Q x y) -> Forall2 Q l k.
Proof.
  induction 1 as [|x y l k Hxy _ IH]; intros Himpl; constructor.
  - apply Himpl; [left|exact Hxy].
  - apply IH. intros x' y' Hx'. apply Himpl. right. exact Hx'.
Qed.

Section Passes.

Variables (df : DataFrame) (index_list : list label) (reapply_all : bool).

Lemma for_each_unit_registry (l : list nat) (acc : option pyval) (w w' : World)
    (r : result (option pyval)) :
  for_each_unit df index_list reapply_all l acc w = (r, w') -> registry_kept w w'.
Proof.
  revert acc w. induction l as [|i l IH]; intros acc w; simpl.
  - intros [= _ <-]. apply registry_kept_refl.
  - unfold bind.
    destruct (apply_unit df index_list reapply_all acc i w) as [[a|e] w1] eqn:Hstep.
    + intros Hrest. apply (registry_kept_trans w w1 w'); [|eapply IH, Hrest].
      destruct (units w !! i) as [t|] eqn:Hi.
      * apply (apply_unit_effect _ _ _ _ _ _ _ _ _ Hi Hstep).
      * rewrite apply_unit_out_of_range in Hstep by (apply lookup_ge_None_1, Hi).
        discriminate Hstep.
    + intros [= _ <-]. destruct (units w !! i) as [t|] eqn:Hi.
      * apply (apply_unit_effect _ _ _ _ _ _ _ _ _ Hi Hstep).
      * rewrite apply_unit_out_of_range in Hstep by (apply lookup_ge_None_1, Hi).
        injection Hstep as _ <-. apply registry_kept_refl.
Qed.

(** A pass that returns has logged, unit after unit in the order of the
    pass, the calls of that unit and nothing else. *)
Lemma for_each_unit_calls (l : list nat) (acc r : option pyval) (w w' : World) :
  NoDup l ->
  for_each_unit df index_list reapply_all l acc w = (Ret r, w') ->
  exists evss,
    call_log w' = call_log w ++ concat evss
    /\ stdout w' = stdout w ++ flat_map (skip_notice reapply_all w) l
    /\ Forall2 (fun i evs => exists t, units w !! i = Some t
                                /\ calls_of_unit reapply_all t evs) l evss.
Proof.
  revert acc w. induction l as [|i l IH]; intros acc w Hnd; simpl.
  - intros [= _ <-]. exists []. simpl. rewrite !app_nil_r. repeat split. constructor.
  - unfold bind.
    destruct (apply_unit df index_list reapply_all acc i w) as [[a|e] w1] eqn:Hstep;
      [|discriminate].
    apply NoDup_cons in Hnd. destruct Hnd as [Hi_l Hnd].
    destruct (units w !! i) as [t|] eqn:Hi.
    2:{ rewrite apply_unit_out_of_range in Hstep by (apply lookup_ge_None_1, Hi).
        discriminate Hstep. }
    destruct (apply_unit_effect _ _ _ _ _ _ _ _ _ Hi Hstep)
      as (_ & Hother & evs & Hlog & Hfn & Hlen & Hskip & Hexec).
    intros Hrest. destruct (IH _ _ Hnd Hrest) as (evss & Hlog' & Hout' & Hall).
    assert (Hsame : forall j, j ∈ l -> units w1 !! j = units w !! j).
    { intros j Hj. apply Hother. intros ->. contradiction. }
    exists (evs :: evss). repeat apply conj.
    + rewrite Hlog', Hlog. simpl. rewrite app_assoc. reflexivity.
    + rewrite Hout'. unfold skip_notice at 2. rewrite Hi.
      replace (flat_map (skip_notice reapply_all w1) l)
        with (flat_map (skip_notice reapply_all w) l).
      2:{ clear -Hsame. induction l as [|j l IHl]; [reflexivity|]. simpl.
          rewrite IHl by (intros j' Hj'; apply Hsame; right; exact Hj').
          unfold skip_notice. rewrite (Hsame j) by left. reflexivity. }
      destruct (transformation_applied t && negb reapply_all) eqn:Hflag.
      * destruct (Hskip eq_refl) as [_ ->]. rewrite <- app_assoc. reflexivity.
      * destruct (Hexec Hflag) as [-> _]. reflexivity.
    + constructor.
      * exists t. split; [exact Hi|]. unfold calls_of_unit, executed.
        split; [exact Hfn|]. split.
        -- intros Hs. apply (Hskip Hs).
        -- intros He. split; [|exact Hlen]. apply (Hexec He) with a. reflexivity.
      * apply (Forall2_impl_elem _ _ _ _ Hall). intros j es Hj (tj & Htj & Hc).
        exists tj. rewrite <- (Hsame j Hj). auto.
Qed.

End Passes.

Lemma applied_registry_kept (w w' : World) (j : nat) :
  registry_kept w w' -> applied w j -> applied w' j.
Proof.
  intros (_ & _ & Hunits) (t & Hj & Hflag).
  destruct (Forall2_lookup_l _ _ _ _ _ Hunits Hj) as (t' & Hj' & Hsame).
  exists t'. split; [exact Hj'|]. apply Hsame, Hflag.
Qed.

Lemma registry_kept_length (w w' : World) :
  registry_kept w w' -> length (units w') = length (units w).
Proof. intros (_ & _ & Hunits). symmetry. eapply Forall2_length, Hunits. Qed.

Section Flags.

Variables (df : DataFrame) (index_list : list label) (reapply_all : bool).

Lemma apply_unit_flags (acc a : option pyval) (i : nat) (w w' : World) :
  apply_unit df index_list reapply_all acc i w = (Ret a, w') -> applied w' i.
Proof.
  intros Hrun. destruct (units w !! i) as [t|] eqn:Hi.
  2:{ rewrite apply_unit_out_of_range in Hrun by (apply lookup_ge_None_1, Hi).
      discriminate Hrun. }
  rewrite (apply_unit_run _ _ _ _ _ _ _ Hi) in Hrun.
  destruct (transformation_applied t && negb reapply_all) eqn:Hskip.
  { injection Hrun as _ <-. exists t. split; [exact Hi|].
    apply andb_true_iff in Hskip. apply Hskip. }
  destruct (get_args t df acc) as [args|e]; [|discriminate].
  rewrite (Transformation_apply_run i t args w Hi) in Hrun.
  destruct (call_transformation_f (transformation_f t) args w) as [[v|e] w0] eqn:Hcall;
    [|discriminate].
  apply call_transformation_f_events in Hcall. destruct Hcall as (evs & -> & _).
  destruct (rbind (rename_output (name t) v) reset_index) as [tdf|]; [|discriminate].
  destruct (merge_fragment index_list acc tdf) as [new|]; [|discriminate].
  injection Hrun as _ <-.
  apply (applied_mark_applied_eq i (logged evs w)).
  apply lookup_lt_Some in Hi. exact Hi.
Qed.

Lemma for_each_unit_flags (l : list nat) (acc r : option pyval) (w w' : World) :
  for_each_unit df index_list reapply_all l acc w = (Ret r, w') ->
  forall i, i ∈ l -> applied w' i.
Proof.
  revert acc w. induction l as [|i l IH]; intros acc w; simpl.
  - intros _ j Hj. inversion Hj.
  - unfold bind.
    destruct (apply_unit df index_list reapply_all acc i w) as [[a|e] w1] eqn:Hstep;
      [|discriminate].
    intros Hrest j Hj. apply elem_of_cons in Hj. destruct Hj as [->|Hj].
    + apply (applied_registry_kept w1 w').
      * exact (for_each_unit_registry _ _ _ _ _ _ _ _ Hrest).
      * exact (apply_unit_flags _ _ _ _ _ Hstep).
    + exact (IH _ _ Hrest j Hj).
Qed.

End Flags.

(** ** Passes over the whole registry (lines 154-196) *)

Lemma pass_keeps_registry_aux (df : DataFrame) (index_cols : option (list string))
    (reapply_all : bool) (w : World) :
  registry_kept w (snd (apply_transformations df index_cols reapply_all w)).
Proof.
  rewrite apply_transformations_run.
  destruct (create_index (drop_duplicate_columns df) index_cols) as [working|e].
  - destruct (for_each_unit (fst working) (snd working) reapply_all
                (seq 0 (length (units w))) (transformed_df (engine w)) w)
      as [r w'] eqn:Hloop.
    exact (for_each_unit_registry _ _ _ _ _ _ _ _ Hloop).
  - apply registry_kept_refl.
Qed.

(** X12.  Whatever the outcome of a pass, it leaves the registry as it was, up to
    the "applied" flags, which it only ever sets: the loggers of the engine
    and of the function objects are unchanged, no unit is added, removed or
    moved, every unit keeps its columns, function, name, kind and fixed
    parameters, and a unit that was flagged stays flagged. *)
Theorem pass_keeps_registry (df : DataFrame) (index_cols : option (list string))
    (reapply_all : bool) (w w' : World) (r : result (option pyval)) :
  apply_transformations df index_cols reapply_all w = (r, w') ->
  fn_logger w' = fn_logger w
  /\ logger (engine w') = logger (engine w)
  /\ length (units w') = length (units w)
  /\ forall i t, units w !! i = Some t ->
       exists t', units w' !! i = Some t' /\ same_unit t t'.
Proof.
  intros Hrun. pose proof (pass_keeps_registry_aux df index_cols reapply_all w) as H.
  rewrite Hrun in H. simpl in H.
  pose proof (registry_kept_length _ _ H) as Hlen.
  destruct H as (Hfn & Hlogger & Hunits).
  repeat split; try assumption.
  intros i t Hi. exact (Forall2_lookup_l _ _ _ _ _ Hunits Hi).
Qed.

(** X13.  A pass that returns leaves every unit of the registry flagged as applied,
    so that a later pass without forced re-application skips them all. *)
Theorem returning_pass_flags_every_unit (df : DataFrame)
    (index_cols : option (list string)) (reapply_all : bool) (w w' : World)
    (r : option pyval) :
  apply_transformations df index_cols reapply_all w = (Ret r, w') ->
  length (units w') = length (units w)
  /\ Forall (fun t => transformation_applied t = true) (units w').
Proof.
  intros Hrun.
  assert (Hkept : registry_kept w w').
  { pose proof (pass_keeps_registry_aux df index_cols reapply_all w) as H.
    rewrite Hrun in H. exact H. }
  pose proof (registry_kept_length _ _ Hkept) as Hlen.
  split; [exact Hlen|].
  rewrite apply_transformations_run in Hrun.
  destruct (create_index (drop_duplicate_columns df) index_cols) as [working|e];
    [|discriminate].
  apply Forall_lookup. intros i t Hi.
  destruct (for_each_unit_flags _ _ _ _ _ _ _ _ Hrun i) as (t' & Hi' & Hflag).
  - apply elem_of_seq. apply lookup_lt_Some in Hi. lia.
  - congruence.
Qed.

Lemma pass_keeps_registry_witness :
  fn_logger demo_world_applied = fn_logger demo_world
  /\ length (units demo_world_applied) = length (units demo_world).
Proof.
  destruct (pass_keeps_registry demo_raw (Some ["ID"]) false demo_world
              demo_world_applied (Ret (Some demo_features)) eq_refl)
    as (Hfn & _ & Hlen & _).
  split; [exact Hfn|exact Hlen].
Defined.

Lemma returning_pass_flags_every_unit_witness :
  Forall (fun t => transformation_applied t = true) (units demo_world_applied).
Proof.
  apply (returning_pass_flags_every_unit demo_raw (Some ["ID"]) false demo_world
           demo_world_applied (Some demo_features) eq_refl).
Defined.

Lemma Forall2_seq_lookup {A B} (P : A -> B -> Prop) (l : list A) (k : list B) :
  Forall2 (fun i y => exists x, l !! i = Some x /\ P x y) (seq 0 (length l)) k ->
  Forall2 P l k.
Proof.
  intros Hall. apply Forall2_same_length_lookup. split.
  - apply Forall2_length in Hall. rewrite length_seq in Hall. exact Hall.
  - intros i x y Hx Hy.
    assert (Hi : seq 0 (length l) !! i = Some i).
    { apply lookup_seq. split; [reflexivity|]. apply lookup_lt_Some in Hx. exact Hx. }
    destruct (Forall2_lookup_lr _ _ _ _ _ _ Hall Hi Hy) as (x' & Hx' & HP).
    congruence.
Qed.

(** X14.  A pass that returns calls the functions of the registry in registration
    order: the calls it adds to the log fall into one group per unit, in
    the order of the registry; the calls of a group are calls of that unit's
    function; the group of a unit that is skipped (flagged, no forced
    re-application) is empty, and the group of any other unit holds one call,
    or two when the keyword call was retried positionally.  The notices it
    prints are those of the skipped units, in the same order.  In particular
    a forced pass calls every unit at least once and prints nothing. *)
Theorem calls_follow_registration_order (df : DataFrame)
    (index_cols : option (list string)) (reapply_all : bool) (w w' : World)
    (r : option pyval) :
  apply_transformations df index_cols reapply_all w = (Ret r, w') ->
  exists evss,
    call_log w' = call_log w ++ concat evss
    /\ Forall2 (calls_of_unit reapply_all) (units w) evss
    /\ stdout w' = stdout w
                   ++ flat_map (skip_notice reapply_all w) (seq 0 (length (units w)))
    /\ (reapply_all = true ->
          stdout w' = stdout w /\ Forall (fun evs => 1 <= length evs) evss).
Proof.
  intros Hrun. rewrite apply_transformations_run in Hrun.
  destruct (create_index (drop_duplicate_columns df) index_cols) as [working|e];
    [|discriminate].
  destruct (for_each_unit_calls _ _ _ _ _ _ _ _ (NoDup_seq 0 _) Hrun)
    as (evss & Hlog & Hout & Hall).
  apply Forall2_seq_lookup in Hall.
  exists evss. split; [exact Hlog|]. split; [exact Hall|]. split; [exact Hout|].
  intros ->. split.
  - rewrite Hout. replace (flat_map (skip_notice true w) (seq 0 (length (units w))))
      with (@nil notice); [apply app_nil_r|].
    generalize (seq 0 (length (units w))). intros l.
    induction l as [|i l IH]; [reflexivity|]. simpl. rewrite <- IH.
    unfold skip_notice. destruct (units w !! i) as [t|]; [|reflexivity].
    rewrite andb_false_r. reflexivity.
  - clear -Hall. induction Hall as [|t evs ts evss (_ & _ & Hex) _ IH]; constructor.
    + apply Hex. unfold executed. apply andb_false_r.
    + exact IH.
Qed.

Lemma calls_follow_registration_order_witness :
  let w' := snd (apply_transformations demo_raw (Some ["ID"]) false naming_world) in
  length (units naming_world) = 3
  /\ exists evss,
       call_log w' = call_log naming_world ++ concat evss
       /\ Forall2 (calls_of_unit false) (units naming_world) evss.
Proof.
  intros w'. split; [reflexivity|].
  destruct (calls_follow_registration_order demo_raw (Some ["ID"]) false naming_world
              w' (Some naming_features) eq_refl)
    as (evss & Hlog & Hall & _).
  exists evss. split; [exact Hlog|exact Hall].
Defined.

(** ** Registration after a pass (lines 82-113 with 180-196) *)

(** X15.  Incremental use of the engine.  When every unit of the registry has been
    applied and one more unit is registered, the next pass without forced
    re-application calls no function but that of the new unit, at most twice;
    once the working table is built it prints one notice per older unit;
    and when it returns, the new function has been called. *)
Theorem late_registration_runs_only_new_unit (df : DataFrame)
    (index_cols : option (list string)) (oc : on_cols) (f : callable)
    (args : option dict) (n : out_name) (ty : string) (w w2 : World)
    (r : result (option pyval)) :
  (forall i, i < length (units w) -> applied w i) ->
  apply_transformations df index_cols false
    (snd (add_transformation oc f args n ty w)) = (r, w2) ->
  exists evs,
    call_log w2 = call_log w ++ evs
    /\ Forall (fun ev => event_fn ev = fn_id f) evs
    /\ length evs <= 2
    /\ (forall working, create_index (drop_duplicate_columns df) index_cols = Ret working ->
          stdout w2 = stdout w ++ all_skipped w)
    /\ (forall a, r = Ret a -> 1 <= length evs).
Proof.
  intros Hall. rewrite add_transformation_run. simpl.
  set (t := Transformation_init (normalize_on_cols oc) f n args ty).
  set (w1 := mkWorld _ _ _ _).
  assert (Hunits : units w1 = units w ++ [t]) by reflexivity.
  rewrite apply_transformations_run.
  destruct (create_index (drop_duplicate_columns df) index_cols) as [working|e].
  2:{ intros [= <- <-]. exists []. simpl. rewrite app_nil_r.
      repeat split; auto; discriminate. }
  rewrite Hunits, length_app. simpl length. rewrite seq_app, for_each_unit_app.
  rewrite for_each_unit_skip.
  2:{ intros i Hi. apply elem_of_seq_0 in Hi. destruct (Hall i Hi) as (ti & Hti & Hflag).
      exists ti. split; [|exact Hflag]. rewrite Hunits.
      rewrite lookup_app_l by exact Hi. exact Hti. }
  simpl. unfold bind.
  set (w1' := printed _ w1).
  assert (Hnew : units w1' !! length (units w) = Some t).
  { change (units w1') with (units w ++ [t]).
    rewrite lookup_app_r by lia. rewrite Nat.sub_diag. reflexivity. }
  destruct (apply_unit (fst working) (snd working) false (transformed_df (engine w))
              (length (units w)) w1') as [ra wa] eqn:Hstep.
  destruct (apply_unit_effect _ _ _ _ _ _ _ _ _ Hnew Hstep)
    as (_ & _ & evs & Hlog & Hfn & Hlen & _ & Hexec).
  destruct (Hexec eq_refl) as [Hout Hcalled].
  intros Hrun. exists evs.
  assert (Hw2 : w2 = wa /\ (forall a, r = Ret a -> exists a', ra = Ret a')).
  { destruct ra as [a'|e]; cbv [ret] in Hrun; cbn in Hrun; injection Hrun as <- <-;
      split; eauto; discriminate. }
  destruct Hw2 as [-> Hret].
  split; [exact Hlog|]. split; [exact Hfn|]. split; [exact Hlen|]. split.
  - intros _ _. rewrite Hout. reflexivity.
  - intros a Ha. destruct (Hret a Ha) as [a' Ha']. apply (Hcalled a' Ha').
Qed.

Lemma late_registration_runs_only_new_unit_witness :
  exists evs,
    call_log (snd (apply_transformations other_raw (Some ["ID"]) false stale_world))
      = call_log demo_world_applied ++ evs
    /\ Forall (fun ev => event_fn ev = 2) evs.
Proof.
  destruct (late_registration_runs_only_new_unit other_raw (Some ["ID"])
              (OneCol "Amount") (transforms_pair 2) None (NameStr "P") "series"
              demo_world_applied
              (snd (apply_transformations other_raw (Some ["ID"]) false stale_world))
              (fst (apply_transformations other_raw (Some ["ID"]) false stale_world)))
    as (evs & Hlog & Hfn & _).
  - intros i Hi. exists (mkTransformation (Cols ["Amount"]) transforms_above_threshold
                           (NameStr "High") "series"
                           (Some [("threshold", PScalar (VInt 500))]) true).
    destruct i as [|i]; [split; reflexivity|]. simpl in Hi. lia.
  - apply surjective_pairing.
  - exists evs. split; [exact Hlog|exact Hfn].
Defined.

(** ** The accumulated table only grows (lines 185-195) *)






Section Growth.

Variables (df : DataFrame) (index_list : list label) (reapply_all : bool).



End Growth.



(** ** The threshold transform of the notebook (lines 373-383) *)

Lemma above_threshold_indicator (th : Z) (vs : list scalar) :
  Forall numeric vs -> above_threshold th vs = Ret (map (indicator th) vs).
Proof.
  induction 1 as [|v vs Hv _ IH]; [reflexivity|]. simpl.
  destruct v as [x|z| |l]; try (destruct Hv; fail); rewrite IH; reflexivity.
Qed.

Lemma above_threshold_not_numeric (th : Z) (vs : list scalar) (v : scalar) :
  v ∈ vs -> ~ numeric v -> exists m, above_threshold th vs = Raise (TypeError m).
Proof.
  intros Hin Hv. induction vs as [|x vs IH]; [inversion Hin|].
  apply elem_of_cons in Hin. simpl. destruct x as [y|z| |l]; eauto.
  - destruct Hin as [-> | Hin]; [destruct Hv; exact I|].
    destruct (IH Hin) as [m ->]. eauto.
  - destruct Hin as [-> | Hin]; [destruct Hv; exact I|].
    destruct (IH Hin) as [m ->]. eauto.
Qed.

(** X17.  A unit that wraps [transforms_above_threshold] under the output name [n],
    invoked on a column of numbers and missing values and an integer
    threshold: the function is called once, by keyword; the fragment is a
    one-column table named [n] under the positions 0, 1, ..., with one value
    per value of the column, 1 where the value exceeds the threshold and 0
    elsewhere (missing values included); the unit is flagged.  On a column
    that holds a string, or any other value that is not a number, the
    comparison raises a [TypeError], which the engine answers with a second,
    positional call that fails the same way. *)
Theorem threshold_unit_gives_indicator (i : nat) (t : Transformation) (n : string)
    (th : Z) (s : Series) (w : World) :
  let args := [("ser1", PSeries s); ("threshold", PScalar (VInt th))] in
  units w !! i = Some t ->
  transformation_f t = transforms_above_threshold ->
  name t = NameStr n ->
  (Forall numeric (s_values s) ->
     Transformation_apply i args w
     = (Ret (PFrame (mkFrame (default_index (length (s_index s)))
                       [(VStr n, map (indicator th) (s_values s))])),
        mark_applied i (logged [CallKw 1 args] w)))
  /\ (forall v, v ∈ s_values s -> ~ numeric v ->
        exists m, Transformation_apply i args w
                  = (Raise (TypeError m),
                     logged [CallKw 1 args; CallPos 1 (dict_values args)] w)).
Proof.
  intros args Hi Hf Hn. rewrite (Transformation_apply_run i t args w Hi), Hf, Hn.
  rewrite call_transformation_f_run. subst args.
  unfold call_kw, call_pos. simpl. split.
  - intros Hvs. rewrite (above_threshold_indicator th _ Hvs). reflexivity.
  - intros v Hin Hv. destruct (above_threshold_not_numeric th _ v Hin Hv) as [m ->].
    simpl. exists m. reflexivity.
Qed.

Lemma threshold_unit_gives_indicator_witness :
  Transformation_apply 0 demo_working_args demo_world
  = (Ret (PFrame (mkFrame [VInt 0; VInt 1] [(VStr "High", [VInt 0; VInt 1])])),
     mark_applied 0 (logged [CallKw 1 demo_working_args] demo_world)).
Proof.
  destruct (threshold_unit_gives_indicator 0 _ "High" 500
              (mkSeries (Some (VStr "Amount")) [VStr "a"; VStr "b"] [VInt 100; VInt 600])
              demo_world eq_refl eq_refl eq_refl) as [H _].
  apply H. repeat constructor.
Defined.
